(** * Token service and permission gate of the admin backend

    A shallow embedding of [backend/common/security/jwt.py],
    [backend/common/security/rbac.py] and of [RedisCli.delete_prefix] from
    [backend/database/db_redis.py], with the properties the specification
    states about them.

    Python values are modelled as follows: [str] as [string] (one
    character per code point; texts are ASCII, and the integer conversion
    is given on all code points below 256), [int] as [Z], [dict]-like
    stores as [gmap], lists as [list], exceptions as values of [exn]
    carried by [result].  The signing library
    and the policy engine are external collaborators and enter as
    interfaces ([Jose], [enforce]). *)

From Stdlib Require Import ZArith String Ascii List Bool Lia.
From Stdlib Require Import DecimalString DecimalPos DecimalZ.
From stdpp Require Import gmap strings list fin_maps.

Local Open Scope string_scope.
Local Open Scope Z_scope.

(** ** Python primitives *)

Module Py.

(** Exceptions raised on the modelled paths.  [TokenError] and
    [AuthorizationError] take an optional [msg]; [None] stands for the
    default message of the class ([raise TokenError] without arguments). *)
Inductive exn : Type :=
| TokenError (msg : option string)
| AuthorizationError (msg : option string)
| ExpiredSignatureError
| JWTError
| TypeError
| ValueError
| AttributeError
| ResponseError.

Inductive result (A : Type) : Type :=
| Ok (a : A)
| Raise (e : exn).
Arguments Ok {A} a.
Arguments Raise {A} e.

Definition bind {A B} (r : result A) (k : A -> result B) : result B :=
  match r with
  | Ok a => k a
  | Raise e => Raise e
  end.

(** [try: body except ...: handler] *)
Definition try_except {A} (body : result A) (handler : exn -> result A) : result A :=
  match body with
  | Ok a => Ok a
  | Raise e => handler e
  end.

(** [if cond: raise e] *)
Definition raise_if (cond : bool) (e : exn) : result unit :=
  if cond then Raise e else Ok tt.

(** Truth value of a [str], an [int] and a [list] ([not x] is its negation). *)
Definition truthy_str (s : string) : bool := negb (String.eqb s "").
Definition truthy_int (n : Z) : bool := negb (n =? 0).
Definition truthy_list {A} (l : list A) : bool :=
  match l with [] => false | _ :: _ => true end.
Definition truthy_opt {A} (truthy : A -> bool) (o : option A) : bool :=
  match o with None => false | Some a => truthy a end.

(** *** [int(s)] for a [str] argument, base 10 *)

(** Characters skipped around the literal: TAB, LF, VT, FF, CR and space,
    and of the code points from 128 on the two white spaces NEL ([\x85])
    and NBSP ([\xa0]).  The separators FS..US ([\x1c]..[\x1f]), which
    [str.strip] removes, are not skipped: [int('\x1c7')] is a
    [ValueError]. *)
Definition is_space (c : ascii) : bool :=
  let n := nat_of_ascii c in
  ((9 <=? n)%nat && (n <=? 13)%nat) || (n =? 32)%nat
  || (n =? 133)%nat || (n =? 160)%nat.

Definition digit_val (c : ascii) : option Z :=
  let n := nat_of_ascii c in
  if ((48 <=? n)%nat && (n <=? 57)%nat) then Some (Z.of_nat (n - 48)) else None.

(** The conversion skips these characters at both ends of the text. *)
Fixpoint lstrip (s : string) : string :=
  match s with
  | EmptyString => EmptyString
  | String c s' => if is_space c then lstrip s' else s
  end.

Fixpoint rev_string (acc s : string) : string :=
  match s with
  | EmptyString => acc
  | String c s' => rev_string (String c acc) s'
  end.

Definition strip (s : string) : string :=
  rev_string "" (lstrip (rev_string "" (lstrip s))).

(** Scanner state of the digit part: a single underscore may separate two
    digits, nothing else. *)
Inductive lit_state : Type := AtStart | AfterDigit | AfterUnderscore.

Fixpoint parse_digits (st : lit_state) (acc : Z) (s : string) : option Z :=
  match s with
  | EmptyString =>
      match st with AfterDigit => Some acc | _ => None end
  | String c s' =>
      match digit_val c with
      | Some d => parse_digits AfterDigit (10 * acc + d) s'
      | None =>
          if Ascii.eqb c "_" then
            match st with
            | AfterDigit => parse_digits AfterUnderscore acc s'
            | _ => None
            end
          else None
      end
  end.

(** [None] is [ValueError: invalid literal for int() with base 10].  The
    interpreter's cap on the number of digits of a literal is left out. *)
Definition int_of_str (s : string) : option Z :=
  match strip s with
  | EmptyString => None
  | String c r =>
      if Ascii.eqb c "+" then parse_digits AtStart 0 r
      else if Ascii.eqb c "-" then Z.opp <$> parse_digits AtStart 0 r
      else parse_digits AtStart 0 (String c r)
  end.

(** [str(n)] for an [int]: decimal digits, [-] for negatives. *)
Definition str_of_int (n : Z) : string :=
  NilZero.string_of_int (Z.to_int n).

(** [s.split(sep)] for a one-character separator: never the empty list. *)
Fixpoint split (sep : ascii) (s : string) : list string :=
  match s with
  | EmptyString => [EmptyString]
  | String c s' =>
      if Ascii.eqb c sep then EmptyString :: split sep s'
      else match split sep s' with
           | h :: t => String c h :: t
           | [] => [String c EmptyString]
           end
  end.

(** [x in l] for a list of strings. *)
Definition str_in (x : string) (l : list string) : bool :=
  existsb (String.eqb x) l.

End Py.

Import Py.

(** ** The key-value store ([redis_client]) *)

Module Redis.

(** A live entry: the stored value and the lifetime (in seconds) it was set
    with.  The store at an instant is the finite map of its live keys;
    the expiry of a key is a step of the environment, not of the code. *)
Record entry : Type := Entry { value : string; ttl : Z }.

Abbreviation store := (gmap string entry).

(** [GET key]: the value ([decode_responses=True]) or [None]. *)
Definition get (key : string) (st : store) : option string :=
  value <$> st !! key.

(** [SETEX key seconds value]; the server rejects a lifetime that is not
    positive. *)
Definition setex (key : string) (seconds : Z) (v : string) (st : store)
  : result unit * store :=
  if seconds <=? 0 then (Raise ResponseError, st)
  else (Ok tt, <[key := Entry v seconds]> st).

(** [DEL key1 key2 ...] *)
Definition delete (keys : list string) (st : store) : store :=
  foldr (fun k m => base.delete k m) st keys.

(** *** Glob matching of [SCAN ... MATCH pattern]

    The server's matcher: [*] any run of characters, [?] one character,
    [[...]] a class with ranges and [^] negation, [\] an escape.  The
    pattern is consumed from the left while the key has characters left;
    once the key is exhausted only trailing stars may remain. *)

Definition is_star (c : ascii) : bool := Ascii.eqb c "*".

(** [while (pattern[1] == '*') pattern++]: of a run of stars keep one. *)
Fixpoint collapse_stars (p : string) : string :=
  match p with
  | String a ((String b _) as p') =>
      if is_star a && is_star b then collapse_stars p' else p
  | _ => p
  end.

Fixpoint skip_stars (p : string) : string :=
  match p with
  | String a p' => if is_star a then skip_stars p' else p
  | EmptyString => EmptyString
  end.

Definition backslash : ascii := "092"%char.

(** [start <= c <= end], the bounds swapped when given in the wrong order. *)
Definition in_range (a e c : ascii) : bool :=
  let lo := Nat.min (nat_of_ascii a) (nat_of_ascii e) in
  let hi := Nat.max (nat_of_ascii a) (nat_of_ascii e) in
  ((lo <=? nat_of_ascii c)%nat && (nat_of_ascii c <=? hi)%nat).

(** The body of a class, after the opening bracket and an optional [^]:
    whether [c] is matched, and the pattern after the closing bracket
    (the end of the pattern closes an unterminated class). *)
Fixpoint class_scan (c : ascii) (m : bool) (p : string) : bool * string :=
  match p with
  | EmptyString => (m, EmptyString)
  | String a p1 =>
      match p1 with
      | String b p2 =>
          if Ascii.eqb a backslash then class_scan c (m || Ascii.eqb b c) p2
          else if Ascii.eqb a "]" then (m, p1)
          else if Ascii.eqb b "-" then
            match p2 with
            | String e p3 => class_scan c (m || in_range a e c) p3
            | EmptyString => class_scan c (m || Ascii.eqb a c) p1
            end
          else class_scan c (m || Ascii.eqb a c) p1
      | EmptyString =>
          if Ascii.eqb a "]" then (m, EmptyString)
          else (m || Ascii.eqb a c, EmptyString)
      end
  end.

(** After [[]: the negation flag and the class body. *)
Definition class_open (p : string) : bool * string :=
  match p with
  | String n body => if Ascii.eqb n "^" then (true, body) else (false, p)
  | EmptyString => (false, p)
  end.

(** [stringmatchlen]; every recursive call is on a shorter pattern, so
    [S (length p)] units of fuel are never used up. *)
Fixpoint stringmatch (fuel : nat) (p s : string) : bool :=
  match fuel with
  | O => false
  | S fuel' =>
      match p, s with
      | EmptyString, EmptyString => true
      | EmptyString, String _ _ => false
      | String _ _, EmptyString => false
      | String pc p1, String sc s1 =>
          let next (p' : string) : bool :=
            match s1 with
            | EmptyString => String.eqb (skip_stars p') EmptyString
            | String _ _ => stringmatch fuel' p' s1
            end in
          if is_star pc then
            match collapse_stars p with
            | EmptyString => false
            | String _ EmptyString => true
            | String _ q =>
                (fix try (t : string) : bool :=
                   match t with
                   | EmptyString => false
                   | String _ t' => stringmatch fuel' q t || try t'
                   end) s
            end
          else if Ascii.eqb pc "?" then next p1
          else if Ascii.eqb pc "[" then
            let '(neg, body) := class_open p1 in
            let '(m, rest) := class_scan sc false body in
            if xorb neg m then next rest else false
          else if Ascii.eqb pc backslash then
            match p1 with
            | String e p2 => if Ascii.eqb e sc then next p2 else false
            | EmptyString => if Ascii.eqb pc sc then next p1 else false
            end
          else if Ascii.eqb pc sc then next p1 else false
      end
  end.

Definition redis_match (pattern key : string) : bool :=
  stringmatch (S (String.length pattern)) pattern key.

(** [scan_iter(match=pattern)]: the live keys the pattern matches. *)
Definition scan_iter (pattern : string) (st : store) : list string :=
  List.filter (redis_match pattern) (map_to_list st).*1.

(** The [exclude] argument of [delete_prefix]: [None], a [str] or a [list]. *)
Inductive exclude_arg : Type :=
| NoExclude
| ExcludeStr (e : string)
| ExcludeList (l : list string).

Definition kept_for_deletion (exclude : exclude_arg) (key : string) : bool :=
  match exclude with
  | ExcludeStr e => negb (String.eqb key e)
  | ExcludeList l => negb (str_in key l)
  | NoExclude => true
  end.

(** [RedisCli.delete_prefix] *)
Definition delete_prefix (prefix : string) (exclude : exclude_arg) (st : store) : store :=
  let keys := List.filter (kept_for_deletion exclude) (scan_iter (prefix +:+ "*") st) in
  if truthy_list keys then delete keys st else st.

End Redis.

Import Redis.

(** ** Configuration and entities *)

(** Modelled from the spec: [backend/core/conf.py] is not among the sources;
    the configuration surface the code reads (section 6 of the
    specification) is a record passed to every operation. *)
Record Settings : Type := {
  TOKEN_SECRET_KEY : string;
  TOKEN_ALGORITHM : string;
  TOKEN_EXPIRE_SECONDS : Z;
  TOKEN_REFRESH_EXPIRE_SECONDS : Z;
  TOKEN_REDIS_PREFIX : string;
  TOKEN_REFRESH_REDIS_PREFIX : string;
  TOKEN_REQUEST_PATH_EXCLUDE : list string;
  PERMISSION_MODE : string;
  RBAC_ROLE_MENU_EXCLUDE : list string;
  RBAC_CASBIN_EXCLUDE : list (string * string)
}.

(** Modelled from the spec: [backend/common/enums.py] is not among the
    sources; [MethodType] members compare as the HTTP method names and
    [StatusType] is [disable = 0], [enable = 1]. *)
Module MethodType.
Definition GET : string := "GET".
Definition OPTIONS : string := "OPTIONS".
End MethodType.

Module StatusType.
Definition disable : Z := 0.
Definition enable : Z := 1.
End StatusType.

(** Modelled from the spec: [backend/app/admin/model] is not among the
    sources; the entities carry the attributes the code reads (section 3
    of the specification). *)
Record Menu : Type := { menu_status : Z; perms : string }.

Record Role : Type := { role_status : Z; data_scope : Z; menus : list Menu }.

Record Dept : Type := { dept_status : Z; del_flag : bool }.

Record User : Type := {
  uuid : string;
  status : Z;
  is_superuser : bool;
  is_staff : bool;
  dept_id : option Z;
  dept : option Dept;
  roles : list Role
}.

(** The parts of a [Request] the security code reads; [state_permission]
    is [getattr(request.state, 'permission', None)]. *)
Record Request : Type := {
  path : string;
  method : string;
  auth_scopes : list string;
  user : User;
  state_permission : option string
}.

(** ** The signing library ([jose.jwt]) *)

Inductive claim : Type :=
| CStr (s : string)
| CInt (n : Z).

Abbreviation claims := (gmap string claim).

(** [encode claims key algorithm] and [decode token key algorithms] at a
    given time (in whole seconds, as the [exp] claim is); [decode] raises
    [ExpiredSignatureError] or another [JWTError]. *)
Record Jose : Type := {
  jose_encode : claims -> string -> string -> string;
  jose_decode : string -> string -> list string -> Z -> result claims
}.

(** [int(x)] for a claim value or [None]. *)
Definition int_of_claim (v : option claim) : result Z :=
  match v with
  | None => Raise TypeError
  | Some (CInt n) => Ok n
  | Some (CStr s) =>
      match int_of_str s with
      | Some n => Ok n
      | None => Raise ValueError
      end
  end.

(** ** [backend/common/security/jwt.py] *)

Module Jwt.

(** Operations on the store: a result and the store they leave behind. *)
Definition M (A : Type) : Type := store -> result A * store.

Definition ret {A} (a : A) : M A := fun st => (Ok a, st).

Definition throw {A} (e : exn) : M A := fun st => (Raise e, st).

Definition mbind {A B} (m : M A) (k : A -> M B) : M B :=
  fun st =>
    match m st with
    | (Ok a, st') => k a st'
    | (Raise e, st') => (Raise e, st')
    end.

Definition update (f : store -> store) : M unit := fun st => (Ok tt, f st).

Definition query {A} (f : store -> A) : M A := fun st => (Ok (f st), st).

Declare Scope await_scope.
Delimit Scope await_scope with await.
Notation "x <~ m ;; k" := (mbind m (fun x => k))
  (at level 100, m at next level, right associativity) : await_scope.
Notation "m ;;; k" := (mbind m (fun _ => k))
  (at level 100, right associativity) : await_scope.

Record AccessToken : Type := {
  access_token : string;
  access_token_expire_time : Z
}.

Record RefreshToken : Type := {
  refresh_token : string;
  refresh_token_expire_time : Z
}.

Record NewToken : Type := {
  new_access_token : string;
  new_access_token_expire_time : Z;
  new_refresh_token : string;
  new_refresh_token_expire_time : Z
}.

(** [f'{prefix}:{sub}'] and [f'{prefix}:{sub}:{token}'] *)
Definition scope_prefix (prefix sub : string) : string :=
  prefix +:+ ":" +:+ sub.

Definition scoped_key (prefix sub token : string) : string :=
  prefix +:+ ":" +:+ sub +:+ ":" +:+ token.

Definition to_encode (expire : Z) (sub : string) : claims :=
  <["exp" := CInt expire]> (<["sub" := CStr sub]> ∅).

Section WithLibrary.
Context (J : Jose) (settings : Settings).

Local Open Scope await_scope.

(** [now] is the value of [timezone.now()] read by the call. *)
Definition create_access_token (sub : string) (multi_login : bool) (now : Z)
  : M AccessToken :=
  let expire := now + TOKEN_EXPIRE_SECONDS settings in
  let expire_seconds := TOKEN_EXPIRE_SECONDS settings in
  let access_token :=
    jose_encode J (to_encode expire sub) (TOKEN_SECRET_KEY settings) (TOKEN_ALGORITHM settings) in
  (if negb multi_login
   then update (delete_prefix (scope_prefix (TOKEN_REDIS_PREFIX settings) sub) NoExclude)
   else ret tt) ;;;
  let key := scoped_key (TOKEN_REDIS_PREFIX settings) sub access_token in
  setex key expire_seconds access_token ;;;
  ret {| access_token := access_token; access_token_expire_time := expire |}.

Definition create_refresh_token (sub : string) (multi_login : bool) (now : Z)
  : M RefreshToken :=
  let expire := now + TOKEN_REFRESH_EXPIRE_SECONDS settings in
  let expire_seconds := TOKEN_REFRESH_EXPIRE_SECONDS settings in
  let refresh_token :=
    jose_encode J (to_encode expire sub) (TOKEN_SECRET_KEY settings) (TOKEN_ALGORITHM settings) in
  (if negb multi_login
   then update (delete_prefix (scope_prefix (TOKEN_REFRESH_REDIS_PREFIX settings) sub) NoExclude)
   else ret tt) ;;;
  let key := scoped_key (TOKEN_REFRESH_REDIS_PREFIX settings) sub refresh_token in
  setex key expire_seconds refresh_token ;;;
  ret {| refresh_token := refresh_token; refresh_token_expire_time := expire |}.

(** [now_access] and [now_refresh] are the two readings of the clock, one
    in each issuing call. *)
Definition create_new_token (sub token refresh_token : string) (multi_login : bool)
  (now_access now_refresh : Z) : M NewToken :=
  redis_refresh_token <~
    query (get (scoped_key (TOKEN_REFRESH_REDIS_PREFIX settings) sub refresh_token)) ;;
  (if negb (truthy_opt truthy_str redis_refresh_token)
      || negb (bool_decide (redis_refresh_token = Some refresh_token))
   then throw (TokenError (Some "Refresh Token has expired"))
   else ret tt) ;;;
  new_access_token <~ create_access_token sub multi_login now_access ;;
  new_refresh_token <~ create_refresh_token sub multi_login now_refresh ;;
  let token_key := scoped_key (TOKEN_REDIS_PREFIX settings) sub token in
  let refresh_token_key :=
    scoped_key (TOKEN_REFRESH_REDIS_PREFIX settings) sub refresh_token in
  update (delete [token_key]) ;;;
  update (delete [refresh_token_key]) ;;;
  ret {| new_access_token := access_token new_access_token;
         new_access_token_expire_time := access_token_expire_time new_access_token;
         new_refresh_token := Jwt.refresh_token new_refresh_token;
         new_refresh_token_expire_time := refresh_token_expire_time new_refresh_token |}.

(** The body of the [try] block of [jwt_decode]. *)
Definition jwt_decode_body (token : string) (now : Z) : result Z :=
  bind (jose_decode J token (TOKEN_SECRET_KEY settings) [TOKEN_ALGORITHM settings] now)
    (fun payload =>
  bind (int_of_claim (payload !! "sub")) (fun user_id =>
  bind (raise_if (negb (truthy_int user_id)) (TokenError (Some "Invalid token")))
    (fun _ => Ok user_id))).

(** [except ExpiredSignatureError] comes first; [except (JWTError,
    Exception)] catches everything else, the [TokenError] of the body
    included. *)
Definition jwt_decode (token : string) (now : Z) : result Z :=
  try_except (jwt_decode_body token now)
    (fun e =>
       match e with
       | ExpiredSignatureError => Raise (TokenError (Some "Token has expired"))
       | _ => Raise (TokenError (Some "Invalid token"))
       end).

Definition jwt_authentication (token : string) (now : Z) : M Z :=
  match jwt_decode token now with
  | Raise e => throw e
  | Ok user_id =>
      let key := scoped_key (TOKEN_REDIS_PREFIX settings) (str_of_int user_id) token in
      token_verify <~ query (get key) ;;
      (if negb (truthy_opt truthy_str token_verify)
       then throw (TokenError (Some "Token has expired"))
       else ret tt) ;;;
      ret user_id
  end.

End WithLibrary.

(** [user_dao.get_with_relation(db, user_id=pk)]: the user row with its
    department and roles loaded, or [None]. *)
Abbreviation database := (gmap Z User).

Definition get_current_user (db : database) (pk : Z) : result User :=
  match db !! pk with
  | None => Raise (TokenError (Some "Invalid token"))
  | Some user =>
      bind (raise_if (negb (truthy_int (status user)))
              (AuthorizationError
                 (Some "User has been locked, please contact the system administrator")))
        (fun _ =>
      bind (if truthy_opt truthy_int (dept_id user) then
              match dept user with
              | None => Raise AttributeError
              | Some d =>
                  bind (raise_if (negb (truthy_int (dept_status d)))
                          (AuthorizationError (Some "User's department has been locked")))
                    (fun _ =>
                  raise_if (del_flag d)
                    (AuthorizationError (Some "User's department has been deleted")))
              end
            else Ok tt) (fun _ =>
      bind (if truthy_list (roles user) then
              let role_status := map role_status (roles user) in
              raise_if (forallb (fun st => st =? 0) role_status)
                (AuthorizationError (Some "User's roles have been locked"))
            else Ok tt) (fun _ =>
      Ok user)))
  end.

Definition superuser_verify (request : Request) : result bool :=
  let superuser := is_superuser (user request) in
  bind (raise_if (negb superuser || negb (is_staff (user request)))
          (AuthorizationError None))
    (fun _ => Ok superuser).

End Jwt.

(** ** [backend/common/security/rbac.py] *)

Module Rbac.

(** [(method, path) in settings.RBAC_CASBIN_EXCLUDE] *)
Definition pair_in (x : string * string) (l : list (string * string)) : bool :=
  existsb (fun y => String.eqb (fst x) (fst y) && String.eqb (snd x) (snd y)) l.

(** The list built by the two nested loops over roles and menus. *)
Definition allow_perms (user_roles : list Role) : list string :=
  flat_map
    (fun role =>
       flat_map
         (fun menu =>
            if menu_status menu =? StatusType.enable
            then split "," (perms menu)
            else [])
         (menus role))
    user_roles.

Section WithEnforcer.
(** [enforcer.enforce(sub, obj, act)] of the policy engine. *)
Context (enforce : string -> string -> string -> bool) (settings : Settings).

Definition rbac_verify (request : Request) : result unit :=
  let path := path request in
  if str_in path (TOKEN_REQUEST_PATH_EXCLUDE settings) then Ok tt else
  bind (raise_if (negb (truthy_list (auth_scopes request))) (TokenError None))
    (fun _ =>
  if is_superuser (user request) then Ok tt else
  let user_roles := roles (user request) in
  bind (raise_if (negb (truthy_list user_roles))
          (AuthorizationError
             (Some "User has not been assigned a role, authorization failed")))
    (fun _ =>
  bind (raise_if (negb (existsb (fun role => (0 <? length (menus role))%nat) user_roles))
          (AuthorizationError
             (Some "User's roles have not been assigned menus, authorization failed")))
    (fun _ =>
  let method := method request in
  bind (if negb (String.eqb method MethodType.GET)
           || negb (String.eqb method MethodType.OPTIONS)
        then raise_if (negb (is_staff (user request)))
               (AuthorizationError
                  (Some "This user is prohibited from backend management operations"))
        else Ok tt)
    (fun _ =>
  let data_scope := existsb (fun role => data_scope role =? 1) user_roles in
  if data_scope then Ok tt else
  let user_uuid := uuid (user request) in
  if String.eqb (PERMISSION_MODE settings) "role-menu" then
    let path_auth_perm := state_permission request in
    if negb (truthy_opt truthy_str path_auth_perm) then Ok tt else
    if truthy_opt (fun p => str_in p (RBAC_ROLE_MENU_EXCLUDE settings)) path_auth_perm
    then Ok tt else
    raise_if (negb (truthy_opt (fun p => str_in p (allow_perms user_roles)) path_auth_perm))
      (AuthorizationError None)
  else
    if pair_in (method, path) (RBAC_CASBIN_EXCLUDE settings) then Ok tt else
    raise_if (negb (enforce user_uuid path method)) (AuthorizationError None))))).

End WithEnforcer.

End Rbac.

(** ** Vocabulary of the specification *)







(** The same set of strings in the terms of the conversion: what is left
    after the strip is a sign and grouped digits. *)
Definition is_digit (c : ascii) : bool :=
  match digit_val c with Some _ => true | None => false end.





(** A key fragment without glob metacharacters: as a pattern it stands for
    itself. *)
Definition plain_char (c : ascii) : bool :=
  negb (is_star c || Ascii.eqb c "?" || Ascii.eqb c "[" || Ascii.eqb c backslash).

Fixpoint literal (s : string) : bool :=
  match s with
  | EmptyString => true
  | String c s' => plain_char c && literal s'
  end.

(** Two key namespaces are separated when neither prefix starts the other. *)
Definition separated (a b : string) : bool :=
  negb (String.prefix a b) && negb (String.prefix b a).

(** No character of [s] is stripped by the integer conversion. *)
Fixpoint no_space (s : string) : bool :=
  match s with
  | EmptyString => true
  | String c s' => negb (is_space c) && no_space s'
  end.

(** [sep in s] *)
Fixpoint has_char (sep : ascii) (s : string) : bool :=
  match s with
  | EmptyString => false
  | String c s' => Ascii.eqb c sep || has_char sep s'
  end.


(** The tokens the two issuing operations mint at a given reading of the
    clock. *)
Definition access_token_at (J : Jose) (cfg : Settings) (sub : string) (now : Z) : string :=
  jose_encode J (Jwt.to_encode (now + TOKEN_EXPIRE_SECONDS cfg) sub)
    (TOKEN_SECRET_KEY cfg) (TOKEN_ALGORITHM cfg).

Definition refresh_token_at (J : Jose) (cfg : Settings) (sub : string) (now : Z) : string :=
  jose_encode J (Jwt.to_encode (now + TOKEN_REFRESH_EXPIRE_SECONDS cfg) sub)
    (TOKEN_SECRET_KEY cfg) (TOKEN_ALGORITHM cfg).

(** [token] verifies at [now] to the claims [c], or does not verify. *)
Definition verifies_only_to (J : Jose) (cfg : Settings) (token : string) (now : Z)
  (c : claims) : Prop :=
  forall p,
    jose_decode J token (TOKEN_SECRET_KEY cfg) [TOKEN_ALGORITHM cfg] now = Ok p -> p = c.

(** The store after an issuing operation: the subject's scope cleared
    unless several sessions are allowed, then the new entry. *)
Definition issued_store (prefix sub token : string) (seconds : Z) (multi_login : bool)
  (st : store) : store :=
  <[Jwt.scoped_key prefix sub token := Entry token seconds]>
    (if multi_login then st
     else delete_prefix (Jwt.scope_prefix prefix sub) NoExclude st).

(** The five errors of user resolution, in the order of their checks. *)
Definition invalid_session : exn := TokenError (Some "Invalid token").
Definition locked_account : exn :=
  AuthorizationError
    (Some "User has been locked, please contact the system administrator").
Definition department_locked : exn :=
  AuthorizationError (Some "User's department has been locked").
Definition department_deleted : exn :=
  AuthorizationError (Some "User's department has been deleted").
Definition roles_locked : exn :=
  AuthorizationError (Some "User's roles have been locked").

(** The user has a department ([dept_id] is set and not zero) whose row
    is loaded. *)
Definition has_dept (u : User) (d : Dept) : Prop :=
  (exists i, dept_id u = Some i /\ i <> 0) /\ dept u = Some d.

(** The department checks do not fire: no department, or one that is
    enabled and not deleted. *)
Definition dept_passes (u : User) : Prop :=
  dept_id u = None \/ dept_id u = Some 0
  \/ exists d, has_dept u d /\ dept_status d <> 0 /\ del_flag d = false.

(** *** The claims of the specification, as stated *)

Module Stated.
Import Jwt.

(** Issuing with multi-session disabled clears the subject's scope and
    stores the new token under its scoped key with the access lifetime. *)
Definition issue_replaces_sessions (J : Jose) (cfg : Settings) (sub : string)
  (now : Z) (st : store) : Prop :=
  exists t st',
    create_access_token J cfg sub false now st = (Ok t, st') /\
    st' !! scoped_key (TOKEN_REDIS_PREFIX cfg) sub (access_token t)
      = Some (Entry (access_token t) (TOKEN_EXPIRE_SECONDS cfg)) /\
    forall k,
      String.prefix (scope_prefix (TOKEN_REDIS_PREFIX cfg) sub) k = true ->
      k <> scoped_key (TOKEN_REDIS_PREFIX cfg) sub (access_token t) ->
      st' !! k = None.

(** After a second issue the first token no longer authenticates and the
    second one yields the subject. *)
Definition reissue_invalidates_first (J : Jose) (cfg : Settings) (sub : string)
  (uid : Z) (now1 now2 now3 : Z) (st : store) : Prop :=
  exists t1 st1 t2 st2,
    create_access_token J cfg sub false now1 st = (Ok t1, st1) /\
    create_access_token J cfg sub false now2 st1 = (Ok t2, st2) /\
    (exists msg,
        fst (jwt_authentication J cfg (access_token t1) now3 st2)
        = Raise (TokenError msg)) /\
    fst (jwt_authentication J cfg (access_token t2) now3 st2) = Ok uid.

(** Rotation succeeds with two distinct fresh tokens, each stored under
    its scoped key, the two old keys gone, and the expiries returned. *)
Definition rotation_succeeds (J : Jose) (cfg : Settings) (sub token rt : string)
  (multi_login : bool) (now_access now_refresh : Z) (st : store) : Prop :=
  exists nt st',
    create_new_token J cfg sub token rt multi_login now_access now_refresh st
    = (Ok nt, st') /\
    new_access_token nt = access_token_at J cfg sub now_access /\
    new_refresh_token nt = refresh_token_at J cfg sub now_refresh /\
    new_access_token nt <> new_refresh_token nt /\
    is_Some (st' !! scoped_key (TOKEN_REDIS_PREFIX cfg) sub (new_access_token nt)) /\
    is_Some (st' !! scoped_key (TOKEN_REFRESH_REDIS_PREFIX cfg) sub (new_refresh_token nt)) /\
    st' !! scoped_key (TOKEN_REDIS_PREFIX cfg) sub token = None /\
    st' !! scoped_key (TOKEN_REFRESH_REDIS_PREFIX cfg) sub rt = None /\
    new_access_token_expire_time nt = now_access + TOKEN_EXPIRE_SECONDS cfg /\
    new_refresh_token_expire_time nt = now_refresh + TOKEN_REFRESH_EXPIRE_SECONDS cfg.

End Stated.

(** *** The permission gate *)

(** Replacing a menu of a role, a role of a user, the user of a request. *)
Definition with_menu (r : Role) (j : nat) (m : Menu) : Role :=
  {| role_status := role_status r; data_scope := data_scope r;
     menus := <[j := m]> (menus r) |}.

Definition with_role (u : User) (i : nat) (r : Role) : User :=
  {| uuid := uuid u; status := status u; is_superuser := is_superuser u;
     is_staff := is_staff u; dept_id := dept_id u; dept := dept u;
     roles := <[i := r]> (roles u) |}.

Definition with_user (q : Request) (u : User) : Request :=
  {| path := path q; method := method q; auth_scopes := auth_scopes q;
     user := u; state_permission := state_permission q |}.

(** Adding a code to a menu: one more entry of its comma-separated string. *)
Definition grant (code : string) (m : Menu) : Menu :=
  {| menu_status := menu_status m; perms := perms m +:+ "," +:+ code |}.

(** [code] is one of the comma-separated codes of an enabled menu of one
    of the roles. *)
Definition granted (user_roles : list Role) (code : string) : Prop :=
  exists r m,
    r ∈ user_roles /\ m ∈ menus r /\ menu_status m = StatusType.enable
    /\ code ∈ split "," (perms m).

Module StatedGate.
Import Rbac.

(** The situation the permission-code claim describes: role-menu mode, a
    user who is not superuser, has roles and menus and no role of open
    data scope, and an attached code outside the exclusion set. *)
Definition code_check_case (cfg : Settings) (q : Request) (code : string) : Prop :=
  PERMISSION_MODE cfg = "role-menu"
  /\ is_superuser (user q) = false
  /\ roles (user q) <> []
  /\ (exists r, r ∈ roles (user q) /\ menus r <> [])
  /\ (forall r, r ∈ roles (user q) -> data_scope r <> 1)
  /\ state_permission q = Some code
  /\ code ∉ RBAC_ROLE_MENU_EXCLUDE cfg.

(** The decision is allow exactly when the code is granted. *)
Definition code_decides (enforce : string -> string -> string -> bool)
  (cfg : Settings) (q : Request) (code : string) : Prop :=
  rbac_verify enforce cfg q = Ok tt <-> granted (roles (user q)) code.

(** What the code adds to that situation before it reaches the check: a
    path outside the whitelist, a present auth scope, a staff user, and a
    code that is not the empty string. *)
Definition reaches_code_check (cfg : Settings) (q : Request) (code : string) : Prop :=
  code_check_case cfg q code
  /\ (path q ∉ TOKEN_REQUEST_PATH_EXCLUDE cfg)
  /\ auth_scopes q <> []
  /\ is_staff (user q) = true
  /\ code <> "".

End StatedGate.

(** *** Concrete inputs *)

(** An unsigned instance of the signing interface, to run the operations
    on concrete inputs: a token spells out subject, expiry and key, and
    verifies when the key agrees and the expiry has not passed. *)
Module Plain.

Definition encode (c : claims) (key alg : string) : string :=
  match c !! "sub", c !! "exp" with
  | Some (CStr s), Some (CInt e) => s +:+ "." +:+ str_of_int e +:+ "." +:+ key
  | _, _ => ""
  end.

Definition decode (token key : string) (algs : list string) (now : Z) : result claims :=
  match split "." token with
  | [s; e; k] =>
      if String.eqb k key then
        match int_of_str e with
        | Some exp =>
            if exp <? now then Raise ExpiredSignatureError
            else Ok (Jwt.to_encode exp s)
        | None => Raise JWTError
        end
      else Raise JWTError
  | _ => Raise JWTError
  end.

Definition jose : Jose := {| jose_encode := encode; jose_decode := decode |}.

End Plain.

Module Sample.

Definition cfg : Settings := {|
  TOKEN_SECRET_KEY := "k";
  TOKEN_ALGORITHM := "HS256";
  TOKEN_EXPIRE_SECONDS := 3600;
  TOKEN_REFRESH_EXPIRE_SECONDS := 604800;
  TOKEN_REDIS_PREFIX := "access";
  TOKEN_REFRESH_REDIS_PREFIX := "refresh";
  TOKEN_REQUEST_PATH_EXCLUDE := ["/api/v1/auth/login"];
  PERMISSION_MODE := "role-menu";
  RBAC_ROLE_MENU_EXCLUDE := ["sys:monitor:redis"];
  RBAC_CASBIN_EXCLUDE := [("POST", "/api/v1/auth/logout")]
|}.

(** No policy of the engine allows anything. *)
Definition no_policy (sub obj act : string) : bool := false.

Definition user_menu : Menu := {| menu_status := 1; perms := "sys:user:list,sys:user:add" |}.

Definition clerk_role : Role :=
  {| role_status := 1; data_scope := 2; menus := [user_menu] |}.

(** A user who is neither superuser nor staff, with one role and one
    enabled menu. *)
Definition clerk : User :=
  {| uuid := "u-7"; status := 1; is_superuser := false; is_staff := false;
     dept_id := None; dept := None; roles := [clerk_role] |}.

(** The same user with the staff flag. *)
Definition officer : User :=
  {| uuid := "u-8"; status := 1; is_superuser := false; is_staff := true;
     dept_id := None; dept := None; roles := [clerk_role] |}.

(** A superuser without roles. *)
Definition root : User :=
  {| uuid := "u-1"; status := 1; is_superuser := true; is_staff := false;
     dept_id := None; dept := None; roles := [] |}.

Definition request_of (m : string) (u : User) (perm : option string) : Request :=
  {| path := "/api/v1/users"; method := m; auth_scopes := ["authenticated"];
     user := u; state_permission := perm |}.

(** The store after subject 7 logs in at second 1000. *)
Definition after_login : store :=
  snd (Jwt.create_refresh_token Plain.jose cfg "7" false 1000
         (snd (Jwt.create_access_token Plain.jose cfg "7" false 1000 ∅))).

End Sample.

(** ** Facts about the primitives *)

Module PyFacts.

Lemma app_cons (c : ascii) (s t : string) : String c s +:+ t = String c (s +:+ t).
Proof. reflexivity. Qed.

Lemma app_empty_l (t : string) : "" +:+ t = t.
Proof. reflexivity. Qed.

Lemma app_empty_r (s : string) : s +:+ "" = s.
Proof. induction s as [|c s IH]; [reflexivity|]. rewrite app_cons. congruence. Qed.

Lemma app_assoc (a b c : string) : (a +:+ b) +:+ c = a +:+ b +:+ c.
Proof. induction a as [|x a IH]; [reflexivity|]. rewrite !app_cons. congruence. Qed.

Lemma rev_string_twice (s a b : string) :
  rev_string a (rev_string b s) = rev_string (s +:+ a) b.
Proof.
  revert a b. induction s as [|c s IH]; intros a b; simpl; [reflexivity|].
  now rewrite IH, app_cons.
Qed.

Lemma no_space_rev (s acc : string) :
  no_space (rev_string acc s) = no_space s && no_space acc.
Proof.
  revert acc. induction s as [|c s IH]; intros acc; simpl; [reflexivity|].
  rewrite IH. simpl. destruct (is_space c), (no_space s), (no_space acc); reflexivity.
Qed.

Lemma lstrip_no_space (s : string) : no_space s = true -> lstrip s = s.
Proof.
  destruct s as [|c s]; simpl; [reflexivity|].
  destruct (is_space c); simpl; [discriminate | reflexivity].
Qed.

Lemma strip_no_space (s : string) : no_space s = true -> strip s = s.
Proof.
  intros H. unfold strip. rewrite (lstrip_no_space s H).
  rewrite lstrip_no_space.
  - rewrite rev_string_twice. simpl. apply app_empty_r.
  - rewrite no_space_rev, H. reflexivity.
Qed.

(** The digit scanner reads the decimal printer's output back. *)
Lemma parse_digits_acc (d : Decimal.uint) (acc : positive) :
  parse_digits AfterDigit (Z.pos acc) (NilEmpty.string_of_uint d)
  = Some (Z.pos (Pos.of_uint_acc d acc)).
Proof.
  revert acc. induction d; intros acc; simpl; try reflexivity;
    rewrite <- IHd; f_equal; lia.
Qed.

Lemma parse_digits_uint (d : Decimal.uint) :
  parse_digits AfterDigit 0 (NilEmpty.string_of_uint d)
  = Some (Z.of_N (Pos.of_uint d)).
Proof.
  induction d; simpl; try reflexivity; try exact IHd;
    apply (parse_digits_acc d).
Qed.

Lemma parse_digits_start (c : ascii) (r : string) (acc : Z) :
  is_digit c = true ->
  parse_digits AtStart acc (String c r) = parse_digits AfterDigit acc (String c r).
Proof. unfold is_digit. simpl. destruct (digit_val c); [reflexivity | discriminate]. Qed.

Lemma no_space_uint (d : Decimal.uint) : no_space (NilEmpty.string_of_uint d) = true.
Proof. induction d; simpl; auto. Qed.

Lemma literal_uint (d : Decimal.uint) : literal (NilEmpty.string_of_uint d) = true.
Proof. induction d; simpl; auto. Qed.

Lemma uint_head_digit (d : Decimal.uint) :
  d <> Decimal.Nil ->
  exists c r, NilEmpty.string_of_uint d = String c r /\ is_digit c = true.
Proof. destruct d; intros H; try congruence; simpl; eexists _, _; split; reflexivity. Qed.

Lemma int_of_uint_string (d : Decimal.uint) :
  d <> Decimal.Nil ->
  int_of_str (NilEmpty.string_of_uint d) = Some (Z.of_uint d).
Proof.
  intros Hd. unfold int_of_str. rewrite strip_no_space by apply no_space_uint.
  destruct (uint_head_digit d Hd) as (c & r & E & Hc).
  pose proof (parse_digits_uint d) as P. rewrite E in *.
  assert (Ascii.eqb c "+" = false /\ Ascii.eqb c "-" = false) as [-> ->].
  { unfold is_digit, digit_val in Hc.
    split; apply Ascii.eqb_neq; intros ->; simpl in Hc; discriminate. }
  rewrite parse_digits_start by exact Hc. exact P.
Qed.

Lemma to_uint_not_nil (p : positive) : Pos.to_uint p <> Decimal.Nil.
Proof. apply DecimalPos.Unsigned.to_uint_nonnil. Qed.

(** [int(str(n)) == n] *)
Lemma int_of_str_of_int (n : Z) : int_of_str (str_of_int n) = Some n.
Proof.
  unfold str_of_int. destruct n as [|p|p]; [reflexivity| |].
  - simpl Z.to_int. unfold NilZero.string_of_int, NilZero.string_of_uint.
    pose proof (to_uint_not_nil p) as Hn.
    destruct (Pos.to_uint p) eqn:E; try congruence;
      rewrite <- E; rewrite int_of_uint_string by (rewrite E; congruence);
      unfold Z.of_uint; rewrite DecimalPos.Unsigned.of_to; reflexivity.
  - simpl Z.to_int. unfold NilZero.string_of_int, NilZero.string_of_uint.
    pose proof (to_uint_not_nil p) as Hn.
    assert (NilEmpty.string_of_uint (Pos.to_uint p) <> "" ) as Hne.
    { destruct (uint_head_digit _ Hn) as (c & r & E & _). rewrite E. discriminate. }
    assert (int_of_str (String "-" (NilEmpty.string_of_uint (Pos.to_uint p)))
            = Some (Z.neg p)) as R.
    { unfold int_of_str. rewrite strip_no_space.
      2:{ simpl. apply no_space_uint. }
      simpl.
      destruct (uint_head_digit _ Hn) as (c & r & E & Hc).
      pose proof (parse_digits_uint (Pos.to_uint p)) as P. rewrite E in *.
      rewrite parse_digits_start by exact Hc. rewrite P.
      rewrite DecimalPos.Unsigned.of_to. reflexivity. }
    destruct (Pos.to_uint p) eqn:E; try congruence; exact R.
Qed.

Lemma str_of_int_inj (n m : Z) : str_of_int n = str_of_int m -> n = m.
Proof.
  intros H. pose proof (int_of_str_of_int n) as Hn.
  rewrite H, int_of_str_of_int in Hn. congruence.
Qed.

Lemma literal_str_of_int (n : Z) : literal (str_of_int n) = true.
Proof.
  unfold str_of_int, NilZero.string_of_int, NilZero.string_of_uint.
  destruct (Z.to_int n) as [d|d]; destruct d; simpl; auto using literal_uint.
Qed.




(** *** The scanner and the strip accept the same strings *)




















(** *** [split] *)

Lemma split_not_nil (sep : ascii) (s : string) : split sep s <> [].
Proof.
  destruct s as [|c s]; simpl; [discriminate|].
  destruct (Ascii.eqb c sep); [discriminate|].
  destruct (split sep s); discriminate.
Qed.

Lemma split_plain (sep : ascii) (s : string) :
  has_char sep s = false -> split sep s = [s].
Proof.
  induction s as [|c s IH]; simpl; [reflexivity|].
  destruct (Ascii.eqb c sep); simpl; [discriminate|].
  intros H. now rewrite (IH H).
Qed.

Lemma split_app (sep : ascii) (s t : string) :
  split sep (s +:+ String sep t) = (split sep s ++ split sep t)%list.
Proof.
  induction s as [|c s IH].
  - rewrite app_empty_l. simpl. now rewrite Ascii.eqb_refl.
  - rewrite app_cons. simpl. destruct (Ascii.eqb c sep).
    + now rewrite IH.
    + rewrite IH. pose proof (split_not_nil sep s).
      destruct (split sep s); [congruence | reflexivity].
Qed.

Lemma truthy_str_ne (s : string) : s <> "" -> truthy_str s = true.
Proof.
  intros H. unfold truthy_str. apply negb_true_iff, String.eqb_neq. exact H.
Qed.

Lemma str_in_iff (x : string) (l : list string) : str_in x l = true <-> x ∈ l.
Proof.
  unfold str_in. rewrite existsb_exists, list_elem_of_In. split.
  - intros (y & Hy & E). apply String.eqb_eq in E. now subst.
  - intros H. exists x. split; [exact H | apply String.eqb_refl].
Qed.

End PyFacts.

Module RedisFacts.
Import PyFacts.

Lemma length_app_star (s : string) :
  String.length (s +:+ "*") = S (String.length s).
Proof.
  induction s as [|c s IH]; [reflexivity|].
  rewrite app_cons. simpl. now rewrite IH.
Qed.

Lemma plain_char_tests (c : ascii) :
  plain_char c = true ->
  is_star c = false /\ Ascii.eqb c "?" = false /\ Ascii.eqb c "[" = false
  /\ Ascii.eqb c backslash = false.
Proof.
  unfold plain_char. intros H. apply negb_true_iff in H.
  repeat (apply orb_false_iff in H; destruct H as [H ?]). auto.
Qed.

(** A literal followed by a star matches exactly the keys the literal
    starts. *)
Lemma stringmatch_literal (lit : string) :
  forall fuel key,
    literal lit = true ->
    (String.length lit < fuel)%nat ->
    lit <> "" \/ key <> "" ->
    stringmatch fuel (lit +:+ "*") key = String.prefix lit key.
Proof.
  induction lit as [|c lit IH]; intros fuel key Hlit Hfuel Hne.
  - destruct fuel as [|fuel]; [lia|].
    destruct key as [|sc s1]; [destruct Hne; congruence|]. reflexivity.
  - destruct fuel as [|fuel]; [simpl in Hfuel; lia|].
    simpl in Hlit. apply andb_true_iff in Hlit as [Hc Hlit].
    destruct (plain_char_tests c Hc) as (T1 & T2 & T3 & T4).
    rewrite app_cons.
    destruct key as [|sc s1]; [reflexivity|].
    cbn [stringmatch String.prefix]. rewrite T1, T2, T3, T4.
    destruct (ascii_dec c sc) as [->|Hcs].
    + rewrite Ascii.eqb_refl.
      destruct s1 as [|sc' s1'].
      * destruct lit as [|c' lit']; [reflexivity|].
        simpl in Hlit. apply andb_true_iff in Hlit as [Hc' _].
        destruct (plain_char_tests c' Hc') as (S1 & _).
        rewrite app_cons. cbn [skip_stars]. rewrite S1. reflexivity.
      * apply IH; [exact Hlit | simpl in Hfuel; lia | right; discriminate].
    + apply Ascii.eqb_neq in Hcs. now rewrite Hcs.
Qed.

Lemma redis_match_literal (lit key : string) :
  literal lit = true -> lit <> "" ->
  redis_match (lit +:+ "*") key = String.prefix lit key.
Proof.
  intros Hlit Hne. unfold redis_match. apply stringmatch_literal; auto.
  rewrite length_app_star. lia.
Qed.

(** *** Prefixes *)

Lemma prefix_app (a b : string) : String.prefix a (a +:+ b) = true.
Proof.
  induction a as [|c a IH]; [destruct b; reflexivity|].
  rewrite app_cons. simpl. destruct (ascii_dec c c); [exact IH | congruence].
Qed.

Lemma prefix_split (a s : string) :
  String.prefix a s = true -> exists r, s = a +:+ r.
Proof.
  revert s. induction a as [|c a IH]; intros s H.
  - exists s. reflexivity.
  - destruct s as [|d s]; [discriminate|]. simpl in H.
    destruct (ascii_dec c d) as [->|]; [|discriminate].
    destruct (IH s H) as [r ->]. exists r. reflexivity.
Qed.

(** Two prefixes of one string: one of them starts the other. *)
Lemma prefix_comparable (a b r1 r2 : string) :
  a +:+ r1 = b +:+ r2 -> String.prefix a b = true \/ String.prefix b a = true.
Proof.
  revert b. induction a as [|c a IH]; intros b H.
  - left. destruct b; reflexivity.
  - destruct b as [|d b]; [right; reflexivity|].
    rewrite !app_cons in H. injection H as -> H.
    destruct (IH b H) as [P|P]; [left|right]; simpl;
      destruct (ascii_dec d d); congruence.
Qed.

Lemma separated_app (a b r1 r2 : string) :
  separated a b = true -> a +:+ r1 <> b +:+ r2.
Proof.
  unfold separated. intros S E.
  apply andb_true_iff in S as [S1 S2].
  apply negb_true_iff in S1, S2.
  destruct (prefix_comparable a b r1 r2 E); congruence.
Qed.

Lemma separated_prefix (a b r1 r2 : string) :
  separated a b = true -> String.prefix (a +:+ r1) (b +:+ r2) = false.
Proof.
  intros S. destruct (String.prefix (a +:+ r1) (b +:+ r2)) eqn:P; [|reflexivity].
  apply prefix_split in P as [r P].
  exfalso. apply (separated_app a b (r1 +:+ r) r2 S).
  rewrite P. clear. induction a as [|c a IH]; [reflexivity|].
  rewrite !app_cons. now rewrite IH.
Qed.

(** *** The store after deletions *)

Lemma lookup_delete_keys (keys : list string) (st : store) (k : string) :
  delete keys st !! k = if decide (k ∈ keys) then None else st !! k.
Proof.
  unfold delete. case_decide.
  - now apply lookup_foldr_delete.
  - now apply lookup_foldr_delete_not_elem_of.
Qed.

Lemma elem_of_scan_iter (pattern : string) (st : store) (k : string) :
  k ∈ scan_iter pattern st <-> redis_match pattern k = true /\ is_Some (st !! k).
Proof.
  unfold scan_iter. rewrite list_elem_of_In, filter_In, <- list_elem_of_In.
  rewrite list_elem_of_fmap. split.
  - intros [([k' e] & -> & Hin) Hm]. split; [exact Hm|].
    apply elem_of_map_to_list in Hin. simpl. eauto.
  - intros [Hm [e He]]. split; [|exact Hm].
    exists (k, e). split; [reflexivity|]. now apply elem_of_map_to_list.
Qed.

(** What [delete_prefix] leaves under each key. *)
Lemma lookup_delete_prefix (prefix : string) (exclude : exclude_arg)
  (st : store) (k : string) :
  delete_prefix prefix exclude st !! k
  = if redis_match (prefix +:+ "*") k && kept_for_deletion exclude k
    then None else st !! k.
Proof.
  unfold delete_prefix.
  set (keys := List.filter _ _).
  assert (k ∈ keys <->
          (redis_match (prefix +:+ "*") k && kept_for_deletion exclude k = true
           /\ is_Some (st !! k))) as Hk.
  { unfold keys. rewrite list_elem_of_In, filter_In, <- list_elem_of_In.
    rewrite elem_of_scan_iter, andb_true_iff. tauto. }
  assert (delete keys st !! k
          = if redis_match (prefix +:+ "*") k && kept_for_deletion exclude k
            then None else st !! k) as Hd.
  { rewrite lookup_delete_keys. case_decide as Hin.
    - apply Hk in Hin as [-> _]. reflexivity.
    - destruct (redis_match _ _ && _) eqn:E; [|reflexivity].
      destruct (st !! k) eqn:L; [|reflexivity].
      exfalso. apply Hin, Hk. eauto. }
  destruct keys as [|k0 keys'] eqn:Ek; simpl; [|exact Hd].
  rewrite <- Hd. reflexivity.
Qed.

End RedisFacts.

(** ** The token service *)

Module JwtFacts.
Import Jwt PyFacts RedisFacts.

Lemma scoped_key_unfold (prefix sub token : string) :
  scoped_key prefix sub token = scope_prefix prefix sub +:+ ":" +:+ token.
Proof. unfold scoped_key, scope_prefix. now rewrite !app_assoc. Qed.

Lemma scoped_key_inj (prefix sub t1 t2 : string) :
  scoped_key prefix sub t1 = scoped_key prefix sub t2 -> t1 = t2.
Proof.
  unfold scoped_key. intros H.
  repeat (apply String.app_inj in H). exact H.
Qed.

Lemma scoped_key_prefix (prefix sub token : string) :
  String.prefix (scope_prefix prefix sub) (scoped_key prefix sub token) = true.
Proof. rewrite scoped_key_unfold. apply prefix_app. Qed.

Lemma scoped_key_separated (a b sub1 sub2 t1 t2 : string) :
  separated a b = true -> scoped_key a sub1 t1 <> scoped_key b sub2 t2.
Proof. intros S. unfold scoped_key. now apply separated_app. Qed.

Lemma literal_app (a b : string) : literal (a +:+ b) = literal a && literal b.
Proof.
  induction a as [|c a IH]; [reflexivity|].
  rewrite app_cons. simpl. rewrite IH. now rewrite andb_assoc.
Qed.

Lemma scope_prefix_not_empty (prefix sub : string) : scope_prefix prefix sub <> "".
Proof.
  unfold scope_prefix. destruct prefix; [rewrite app_empty_l | rewrite app_cons];
    discriminate.
Qed.

Lemma literal_scope_prefix (prefix : string) (n : Z) :
  literal prefix = true -> literal (scope_prefix prefix (str_of_int n)) = true.
Proof.
  intros H. unfold scope_prefix. rewrite !literal_app, H, literal_str_of_int.
  reflexivity.
Qed.

Section Issuing.
Context (J : Jose) (cfg : Settings).

Lemma create_access_token_eq (sub : string) (multi_login : bool) (now : Z) (st : store) :
  0 < TOKEN_EXPIRE_SECONDS cfg ->
  create_access_token J cfg sub multi_login now st
  = (Ok {| access_token := access_token_at J cfg sub now;
           access_token_expire_time := now + TOKEN_EXPIRE_SECONDS cfg |},
     issued_store (TOKEN_REDIS_PREFIX cfg) sub (access_token_at J cfg sub now)
       (TOKEN_EXPIRE_SECONDS cfg) multi_login st).
Proof.
  intros Hpos. unfold create_access_token, issued_store, access_token_at, mbind, setex.
  destruct multi_login; simpl;
    destruct (Z.leb_spec (TOKEN_EXPIRE_SECONDS cfg) 0); try lia; reflexivity.
Qed.

Lemma create_refresh_token_eq (sub : string) (multi_login : bool) (now : Z) (st : store) :
  0 < TOKEN_REFRESH_EXPIRE_SECONDS cfg ->
  create_refresh_token J cfg sub multi_login now st
  = (Ok {| refresh_token := refresh_token_at J cfg sub now;
           refresh_token_expire_time := now + TOKEN_REFRESH_EXPIRE_SECONDS cfg |},
     issued_store (TOKEN_REFRESH_REDIS_PREFIX cfg) sub (refresh_token_at J cfg sub now)
       (TOKEN_REFRESH_EXPIRE_SECONDS cfg) multi_login st).
Proof.
  intros Hpos. unfold create_refresh_token, issued_store, refresh_token_at, mbind, setex.
  destruct multi_login; simpl;
    destruct (Z.leb_spec (TOKEN_REFRESH_EXPIRE_SECONDS cfg) 0); try lia; reflexivity.
Qed.

Lemma lookup_issued_new (prefix sub token : string) (seconds : Z) (ml : bool) (st : store) :
  issued_store prefix sub token seconds ml st !! scoped_key prefix sub token
  = Some (Entry token seconds).
Proof. unfold issued_store. apply lookup_insert_eq. Qed.

(** With a literal scope, issuing for a single session leaves nothing else
    under the scope. *)
Lemma lookup_issued_scope (prefix sub token : string) (seconds : Z) (st : store)
  (k : string) :
  literal (scope_prefix prefix sub) = true ->
  String.prefix (scope_prefix prefix sub) k = true ->
  k <> scoped_key prefix sub token ->
  issued_store prefix sub token seconds false st !! k = None.
Proof.
  intros Hlit Hpre Hne. unfold issued_store.
  rewrite lookup_insert_ne by congruence.
  rewrite lookup_delete_prefix.
  rewrite redis_match_literal by auto using scope_prefix_not_empty.
  now rewrite Hpre.
Qed.

(** Keys outside a literal scope survive an issue. *)
Lemma lookup_issued_other (prefix sub token : string) (seconds : Z) (ml : bool)
  (st : store) (k : string) :
  (ml = false -> literal (scope_prefix prefix sub) = true) ->
  String.prefix (scope_prefix prefix sub) k = false ->
  issued_store prefix sub token seconds ml st !! k = st !! k.
Proof.
  intros Hlit Hpre. unfold issued_store.
  rewrite lookup_insert_ne.
  2:{ intros <-. rewrite scoped_key_prefix in Hpre. discriminate. }
  destruct ml; [reflexivity|].
  rewrite lookup_delete_prefix.
  rewrite redis_match_literal by auto using scope_prefix_not_empty.
  now rewrite Hpre.
Qed.

(** *** Decoding *)

Lemma jwt_decode_token_error (token : string) (now : Z) (e : exn) :
  jwt_decode J cfg token now = Raise e ->
  e = TokenError (Some "Token has expired") \/ e = TokenError (Some "Invalid token").
Proof.
  unfold jwt_decode, try_except.
  destruct (jwt_decode_body J cfg token now) as [uid|e']; [discriminate|].
  destruct e'; intros [= <-]; auto.
Qed.

Lemma jwt_decode_ok (token : string) (now uid : Z) :
  jwt_decode J cfg token now = Ok uid <->
  exists payload,
    jose_decode J token (TOKEN_SECRET_KEY cfg) [TOKEN_ALGORITHM cfg] now = Ok payload
    /\ int_of_claim (payload !! "sub") = Ok uid /\ uid <> 0.
Proof.
  unfold jwt_decode, try_except, jwt_decode_body, bind, raise_if, truthy_int.
  destruct (jose_decode J token _ _ now) as [payload|e].
  - destruct (int_of_claim (payload !! "sub")) as [n|e] eqn:E.
    + destruct (Z.eqb_spec n 0) as [->|Hn]; simpl.
      * split; [discriminate|]. intros (p & [= <-] & Hu & H). congruence.
      * split.
        -- intros [= <-]. eauto.
        -- intros (p & [= <-] & Hu & _). congruence.
    + split; [destruct e; discriminate|]. intros (p & [= <-] & Hu & _). congruence.
  - split; [destruct e; discriminate|]. intros (p & H & _). discriminate.
Qed.


(** *** Authentication *)

Lemma jwt_authentication_eq (token : string) (now : Z) (st : store) :
  jwt_authentication J cfg token now st
  = (match jwt_decode J cfg token now with
     | Raise e => Raise e
     | Ok uid =>
         if truthy_opt truthy_str
              (get (scoped_key (TOKEN_REDIS_PREFIX cfg) (str_of_int uid) token) st)
         then Ok uid
         else Raise (TokenError (Some "Token has expired"))
     end, st).
Proof.
  unfold jwt_authentication.
  destruct (jwt_decode J cfg token now) as [uid|e]; [|reflexivity].
  unfold mbind, query, throw, ret.
  destruct (truthy_opt truthy_str _); reflexivity.
Qed.

End Issuing.

End JwtFacts.

Module TokenService.
Import Jwt PyFacts RedisFacts JwtFacts.

(** C1 — Authentication decodes the token first (a decoding failure is
    the failure of the authentication, a [TokenError]); it returns the
    subject id only if the scoped key of the decoded subject and the token
    is in the store; and when that key is absent it fails with
    [TokenError] although the token decodes. The store is left as it was. *)
Theorem authentication_requires_stored_key (J : Jose) (cfg : Settings)
  (token : string) (now : Z) (st : store) :
  (forall e,
      jwt_decode J cfg token now = Raise e ->
      jwt_authentication J cfg token now st = (Raise e, st)
      /\ exists msg, e = TokenError msg)
  /\ (forall uid,
        fst (jwt_authentication J cfg token now st) = Ok uid ->
        jwt_decode J cfg token now = Ok uid
        /\ is_Some (st !! scoped_key (TOKEN_REDIS_PREFIX cfg) (str_of_int uid) token))
  /\ (forall uid,
        jwt_decode J cfg token now = Ok uid ->
        st !! scoped_key (TOKEN_REDIS_PREFIX cfg) (str_of_int uid) token = None ->
        jwt_authentication J cfg token now st
        = (Raise (TokenError (Some "Token has expired")), st)).
Proof.
  rewrite jwt_authentication_eq. repeat split.
  - now rewrite H.
  - destruct (jwt_decode_token_error J cfg token now e H) as [-> | ->]; eauto.
  - simpl in H. destruct (jwt_decode J cfg token now) as [u|e]; [|discriminate].
    destruct (truthy_opt _ _); congruence.
  - simpl in H. destruct (jwt_decode J cfg token now) as [u|e]; [|discriminate].
    unfold get in H.
    destruct (st !! scoped_key (TOKEN_REDIS_PREFIX cfg) (str_of_int u) token) eqn:L;
      simpl in H; [|discriminate].
    destruct (truthy_str (value e)); [|discriminate].
    injection H as <-. rewrite L. eauto.
  - intros uid Hd Hk. rewrite Hd. unfold get. rewrite Hk. reflexivity.
Qed.

Lemma authentication_requires_stored_key_witness :
  jwt_decode Plain.jose Sample.cfg "7.4600.k" 1000 = Ok 7
  /\ jwt_authentication Plain.jose Sample.cfg "7.4600.k" 1000 ∅
     = (Raise (TokenError (Some "Token has expired")), ∅).
Proof.
  split; [vm_compute; reflexivity|].
  apply (proj2 (proj2 (authentication_requires_stored_key
                         Plain.jose Sample.cfg "7.4600.k" 1000 ∅)) 7);
    vm_compute; reflexivity.
Defined.



(** C4 — Rotation fails with [TokenError] whenever the value stored under
    the refresh key of the subject and the supplied refresh token is
    absent or differs from the supplied token; nothing is issued and the
    store is left as it was. *)
Theorem stale_refresh_token_rejected (J : Jose) (cfg : Settings)
  (sub token rt : string) (multi_login : bool) (now_access now_refresh : Z)
  (st : store) :
  get (scoped_key (TOKEN_REFRESH_REDIS_PREFIX cfg) sub rt) st <> Some rt ->
  create_new_token J cfg sub token rt multi_login now_access now_refresh st
  = (Raise (TokenError (Some "Refresh Token has expired")), st).
Proof.
  intros H. unfold create_new_token, mbind, query, throw.
  destruct (negb (truthy_opt truthy_str _)); simpl; [reflexivity|].
  rewrite bool_decide_eq_false_2 by exact H. reflexivity.
Qed.

Lemma stale_refresh_token_rejected_witness :
  create_new_token Plain.jose Sample.cfg "7" "7.4600.k" "7.605799.k" false 1001 1001
    Sample.after_login
  = (Raise (TokenError (Some "Refresh Token has expired")), Sample.after_login).
Proof.
  apply (stale_refresh_token_rejected Plain.jose Sample.cfg "7" "7.4600.k" "7.605799.k"
           false 1001 1001 Sample.after_login).
  vm_compute. discriminate.
Defined.

(** C9 — [superuser_verify] returns [True] when the user has both the
    superuser and the staff flag, and raises [AuthorizationError] when
    either is missing: a superuser who is not staff is rejected. *)
Theorem superuser_verify_needs_both_flags (request : Request) :
  (is_superuser (user request) = true /\ is_staff (user request) = true ->
   superuser_verify request = Ok true)
  /\ (is_superuser (user request) = false \/ is_staff (user request) = false ->
      superuser_verify request = Raise (AuthorizationError None)).
Proof.
  unfold superuser_verify, bind, raise_if.
  destruct (is_superuser (user request)), (is_staff (user request)); simpl;
    split; intros H; try reflexivity; destruct H; discriminate.
Qed.

Lemma superuser_verify_needs_both_flags_witness :
  superuser_verify
    {| path := "/api/v1/users"; method := "DELETE"; auth_scopes := ["authenticated"];
       user := {| uuid := "u-1"; status := 1; is_superuser := true; is_staff := false;
                  dept_id := None; dept := None; roles := [] |};
       state_permission := None |}
  = Raise (AuthorizationError None).
Proof.
  apply (proj2 (superuser_verify_needs_both_flags _)). right. reflexivity.
Defined.

(** *** User resolution *)

Lemma dept_check_has (u : User) (d : Dept) :
  has_dept u d -> truthy_opt truthy_int (dept_id u) = true /\ dept u = Some d.
Proof.
  intros [(i & E & Hi) Hd]. split; [|exact Hd].
  rewrite E. simpl. unfold truthy_int. now destruct (Z.eqb_spec i 0).
Qed.

(** C7 — User resolution applies its five checks in a fixed order, each
    with its own error: user not found; status disabled, whatever the
    department and the roles are; department disabled, then department
    deleted, both only for a user with a department; all roles disabled,
    only for a user with roles. A user passing all of them is returned. *)
Theorem get_current_user_check_order (db : database) (pk : Z) :
  (db !! pk = None -> get_current_user db pk = Raise invalid_session)
  /\ (forall u, db !! pk = Some u ->
        status u = 0 -> get_current_user db pk = Raise locked_account)
  /\ (forall u d, db !! pk = Some u ->
        status u <> 0 -> has_dept u d -> dept_status d = 0 ->
        get_current_user db pk = Raise department_locked)
  /\ (forall u d, db !! pk = Some u ->
        status u <> 0 -> has_dept u d -> dept_status d <> 0 -> del_flag d = true ->
        get_current_user db pk = Raise department_deleted)
  /\ (forall u, db !! pk = Some u ->
        status u <> 0 -> dept_passes u ->
        roles u <> [] -> Forall (fun r => role_status r = 0) (roles u) ->
        get_current_user db pk = Raise roles_locked)
  /\ (forall u, db !! pk = Some u ->
        status u <> 0 -> dept_passes u ->
        (roles u = [] \/ Exists (fun r => role_status r <> 0) (roles u)) ->
        get_current_user db pk = Ok u)
  /\ NoDup [invalid_session; locked_account; department_locked;
            department_deleted; roles_locked].
Proof.
  assert (forall u, status u <> 0 -> negb (truthy_int (status u)) = false) as Hst.
  { intros u H. unfold truthy_int. now destruct (Z.eqb_spec (status u) 0). }
  assert (forall u, dept_passes u ->
            (if truthy_opt truthy_int (dept_id u) then
               match dept u with
               | None => Raise AttributeError
               | Some d =>
                   bind (raise_if (negb (truthy_int (dept_status d)))
                           (AuthorizationError (Some "User's department has been locked")))
                     (fun _ => raise_if (del_flag d)
                        (AuthorizationError (Some "User's department has been deleted")))
               end
             else Ok tt) = Ok tt) as Hdp.
  { intros u [E | [E | (d & Hd & Hs & Hf)]]; try (rewrite E; reflexivity).
    destruct (dept_check_has u d Hd) as [-> ->]. rewrite Hf.
    unfold truthy_int. now destruct (Z.eqb_spec (dept_status d) 0). }
  unfold get_current_user. repeat split.
  - intros ->. reflexivity.
  - intros u -> H. rewrite H. reflexivity.
  - intros u d -> Hs Hd Hz. rewrite (Hst u Hs). simpl.
    destruct (dept_check_has u d Hd) as [-> ->]. rewrite Hz. reflexivity.
  - intros u d -> Hs Hd Hz Hf. rewrite (Hst u Hs). simpl.
    destruct (dept_check_has u d Hd) as [-> ->]. rewrite Hf.
    unfold truthy_int. now destruct (Z.eqb_spec (dept_status d) 0).
  - intros u -> Hs Hd Hr Hall. rewrite (Hst u Hs). simpl. rewrite (Hdp u Hd). simpl.
    destruct (roles u) as [|r rs] eqn:R; [congruence|]. simpl truthy_list. cbv iota.
    assert (forallb (fun st => st =? 0) (map role_status (r :: rs)) = true) as ->.
    { rewrite forallb_forall. intros x Hx. apply in_map_iff in Hx as (r' & <- & Hr').
      rewrite Forall_forall in Hall. apply Z.eqb_eq, Hall.
      now apply list_elem_of_In. }
    reflexivity.
  - intros u -> Hs Hd Hr. rewrite (Hst u Hs). simpl. rewrite (Hdp u Hd). simpl.
    destruct Hr as [-> | Hex]; [reflexivity|].
    destruct (roles u) as [|r rs] eqn:R; [reflexivity|]. simpl truthy_list. cbv iota.
    assert (forallb (fun st => st =? 0) (map role_status (r :: rs)) = false) as ->.
    { apply not_true_is_false. rewrite forallb_forall. intros Hall.
      apply Exists_exists in Hex as (r' & Hin & Hne). apply Hne, Z.eqb_eq, Hall.
      apply in_map. now apply list_elem_of_In. }
    reflexivity.
  - repeat constructor; rewrite ?elem_of_cons, ?elem_of_nil; unfold invalid_session,
      locked_account, department_locked, department_deleted, roles_locked;
      intuition discriminate.
Qed.

Lemma get_current_user_check_order_witness :
  get_current_user
    {[ 7 := {| uuid := "u-7"; status := 0; is_superuser := false; is_staff := true;
               dept_id := Some 3;
               dept := Some {| dept_status := 0; del_flag := true |};
               roles := [ {| role_status := 0; data_scope := 2; menus := [] |} ] |} ]}
    7
  = Raise locked_account.
Proof.
  eapply (proj1 (proj2 (get_current_user_check_order _ 7))); reflexivity.
Defined.

(** *** Single session *)

Lemma to_encode_sub (expire : Z) (sub : string) :
  to_encode expire sub !! "sub" = Some (CStr sub).
Proof. unfold to_encode. now rewrite lookup_insert_ne, lookup_insert_eq. Qed.

Lemma to_encode_exp (expire : Z) (sub : string) :
  to_encode expire sub !! "exp" = Some (CInt expire).
Proof. unfold to_encode. now rewrite lookup_insert_eq. Qed.

(** A token that verifies to the claims minted for subject [n] decodes to
    [n]. *)
Lemma jwt_decode_minted (J : Jose) (cfg : Settings) (token : string) (now expire n : Z) :
  n <> 0 ->
  jose_decode J token (TOKEN_SECRET_KEY cfg) [TOKEN_ALGORITHM cfg] now
  = Ok (to_encode expire (str_of_int n)) ->
  jwt_decode J cfg token now = Ok n.
Proof.
  intros Hn Hd. apply jwt_decode_ok. eexists. split; [exact Hd|]. split; [|exact Hn].
  rewrite to_encode_sub. simpl. now rewrite int_of_str_of_int.
Qed.

(** C2, as the code has it — For a subject id [n] other than zero, passed
    as its decimal string, with a positive access lifetime and an access
    prefix free of glob metacharacters: issuing with multi-session
    disabled leaves no other key under the subject's scope and stores the
    new token under its scoped key with the access lifetime; and when the
    second token differs from the first (and verifies), authenticating the
    first fails with [TokenError] and authenticating the second returns
    [n]. *)
Theorem single_session_reissue (J : Jose) (cfg : Settings) (n : Z)
  (now1 now2 now3 : Z) (st : store) :
  n <> 0 ->
  0 < TOKEN_EXPIRE_SECONDS cfg ->
  literal (TOKEN_REDIS_PREFIX cfg) = true ->
  access_token_at J cfg (str_of_int n) now1 <> access_token_at J cfg (str_of_int n) now2 ->
  access_token_at J cfg (str_of_int n) now2 <> "" ->
  jose_decode J (access_token_at J cfg (str_of_int n) now2)
    (TOKEN_SECRET_KEY cfg) [TOKEN_ALGORITHM cfg] now3
  = Ok (to_encode (now2 + TOKEN_EXPIRE_SECONDS cfg) (str_of_int n)) ->
  verifies_only_to J cfg (access_token_at J cfg (str_of_int n) now1) now3
    (to_encode (now1 + TOKEN_EXPIRE_SECONDS cfg) (str_of_int n)) ->
  Stated.issue_replaces_sessions J cfg (str_of_int n) now1 st
  /\ Stated.reissue_invalidates_first J cfg (str_of_int n) n now1 now2 now3 st.
Proof.
  intros Hn Hpos Hlit Hdiff Hne Hd2 Hv1.
  pose proof (literal_scope_prefix _ n Hlit) as Hscope.
  split.
  - eexists _, _. split; [apply create_access_token_eq; exact Hpos|]. simpl. split.
    + apply lookup_issued_new.
    + intros k Hk Hkn. now apply lookup_issued_scope.
  - eexists _, _, _, _.
    split; [apply create_access_token_eq; exact Hpos|].
    split; [apply create_access_token_eq; exact Hpos|].
    simpl. rewrite !jwt_authentication_eq. simpl. split.
    + destruct (jwt_decode J cfg (access_token_at J cfg (str_of_int n) now1) now3)
        as [uid|e] eqn:D.
      * apply jwt_decode_ok in D as (p & Hp & Hs & _).
        rewrite (Hv1 p Hp), to_encode_sub in Hs. simpl in Hs.
        rewrite int_of_str_of_int in Hs. injection Hs as <-.
        unfold get. rewrite lookup_issued_scope; simpl; eauto using scoped_key_prefix.
        intros E. apply scoped_key_inj in E. congruence.
      * destruct (jwt_decode_token_error J cfg _ _ _ D) as [-> | ->]; eauto.
    + rewrite (jwt_decode_minted J cfg _ _ _ n Hn Hd2).
      unfold get. rewrite lookup_issued_new. simpl.
      now rewrite truthy_str_ne.
Qed.

Lemma single_session_reissue_witness :
  Stated.issue_replaces_sessions Plain.jose Sample.cfg "7" 1000 ∅
  /\ Stated.reissue_invalidates_first Plain.jose Sample.cfg "7" 7 1000 1060 1061 ∅.
Proof.
  apply (single_session_reissue Plain.jose Sample.cfg 7 1000 1060 1061 ∅);
    vm_compute; congruence.
Defined.

(** C2, as stated, fails when the two issues read the same second: the
    claims and so the tokens are the same, the second issue stores the
    key of the first again, and the first token still authenticates. *)
Lemma reissue_same_second_counterexample :
  access_token_at Plain.jose Sample.cfg "7" 1000 = "7.4600.k"
  /\ fst (jwt_authentication Plain.jose Sample.cfg "7.4600.k" 1001
            (snd (create_access_token Plain.jose Sample.cfg "7" false 1000
                    (snd (create_access_token Plain.jose Sample.cfg "7" false 1000 ∅)))))
     = Ok 7
  /\ ~ Stated.reissue_invalidates_first Plain.jose Sample.cfg "7" 7 1000 1000 1001 ∅.
Proof.
  assert (fst (jwt_authentication Plain.jose Sample.cfg "7.4600.k" 1001
            (snd (create_access_token Plain.jose Sample.cfg "7" false 1000
                    (snd (create_access_token Plain.jose Sample.cfg "7" false 1000 ∅)))))
          = Ok 7) as Hauth by (vm_compute; reflexivity).
  split; [vm_compute; reflexivity|]. split; [exact Hauth|].
  intros (t1 & st1 & t2 & st2 & H1 & H2 & (msg & H3) & _).
  pose proof (f_equal fst H1) as F1. pose proof (f_equal snd H1) as S1.
  cbn [fst snd] in F1, S1. subst st1.
  pose proof (f_equal snd H2) as S2. cbn [snd] in S2. subst st2.
  vm_compute in F1. injection F1 as <-.
  cbn [access_token] in H3. rewrite Hauth in H3. discriminate.
Qed.

(** The scope of a subject is matched as a string prefix: issuing for
    subject 7 with multi-session disabled also removes the session key of
    subject 70. *)
Example issue_for_7_clears_70 :
  get "access:70:70.4600.k"
    (snd (create_access_token Plain.jose Sample.cfg "70" false 1000 ∅))
  = Some "70.4600.k"
  /\ get "access:70:70.4600.k"
       (snd (create_access_token Plain.jose Sample.cfg "7" false 2000
               (snd (create_access_token Plain.jose Sample.cfg "70" false 1000 ∅))))
     = None.
Proof. split; vm_compute; reflexivity. Qed.

(** *** Rotation *)

Lemma separated_sym (a b : string) : separated a b = separated b a.
Proof. unfold separated. apply andb_comm. Qed.

Lemma scope_prefix_separated (a b sub1 sub2 token : string) :
  separated a b = true ->
  String.prefix (scope_prefix a sub1) (scoped_key b sub2 token) = false.
Proof. intros S. unfold scope_prefix, scoped_key. now apply separated_prefix. Qed.

Lemma create_new_token_eq (J : Jose) (cfg : Settings) (sub token rt : string)
  (ml : bool) (na nr : Z) (st : store) :
  get (scoped_key (TOKEN_REFRESH_REDIS_PREFIX cfg) sub rt) st = Some rt ->
  rt <> "" ->
  0 < TOKEN_EXPIRE_SECONDS cfg ->
  0 < TOKEN_REFRESH_EXPIRE_SECONDS cfg ->
  create_new_token J cfg sub token rt ml na nr st
  = (Ok {| new_access_token := access_token_at J cfg sub na;
           new_access_token_expire_time := na + TOKEN_EXPIRE_SECONDS cfg;
           new_refresh_token := refresh_token_at J cfg sub nr;
           new_refresh_token_expire_time := nr + TOKEN_REFRESH_EXPIRE_SECONDS cfg |},
     delete [scoped_key (TOKEN_REFRESH_REDIS_PREFIX cfg) sub rt]
       (delete [scoped_key (TOKEN_REDIS_PREFIX cfg) sub token]
          (issued_store (TOKEN_REFRESH_REDIS_PREFIX cfg) sub
             (refresh_token_at J cfg sub nr) (TOKEN_REFRESH_EXPIRE_SECONDS cfg) ml
             (issued_store (TOKEN_REDIS_PREFIX cfg) sub
                (access_token_at J cfg sub na) (TOKEN_EXPIRE_SECONDS cfg) ml st)))).
Proof.
  intros Hget Hrt Ha Hr. unfold create_new_token, mbind at 1, query.
  rewrite Hget. simpl truthy_opt. rewrite (truthy_str_ne rt Hrt).
  rewrite bool_decide_eq_true_2 by reflexivity. simpl.
  unfold mbind at 1, ret at 1. unfold mbind at 1.
  rewrite (create_access_token_eq J cfg sub ml na st Ha).
  unfold mbind at 1. rewrite (create_refresh_token_eq J cfg sub ml nr _ Hr).
  reflexivity.
Qed.

(** Past the second of the issue the rotation does what the
    specification says.  For a subject whose supplied refresh token is the
    non-empty value stored under its refresh key, with positive lifetimes
    and access and refresh prefixes that do not start one another (the
    refresh scope free of glob metacharacters when multi-session is
    disabled), with freshly minted tokens that differ from the ones
    handed in and verify to their claims, of different expiries: rotation
    succeeds and returns the two minted tokens with their expiries, the
    two are distinct, each is stored under its own scoped key, and the
    keys of the old access and refresh tokens are gone. *)
Theorem rotation_with_stored_refresh_token (J : Jose) (cfg : Settings)
  (sub token rt : string) (multi_login : bool) (now_access now_refresh now3 : Z)
  (st : store) :
  get (scoped_key (TOKEN_REFRESH_REDIS_PREFIX cfg) sub rt) st = Some rt ->
  rt <> "" ->
  0 < TOKEN_EXPIRE_SECONDS cfg ->
  0 < TOKEN_REFRESH_EXPIRE_SECONDS cfg ->
  separated (TOKEN_REDIS_PREFIX cfg) (TOKEN_REFRESH_REDIS_PREFIX cfg) = true ->
  (multi_login = false ->
   literal (scope_prefix (TOKEN_REFRESH_REDIS_PREFIX cfg) sub) = true) ->
  access_token_at J cfg sub now_access <> token ->
  refresh_token_at J cfg sub now_refresh <> rt ->
  now_access + TOKEN_EXPIRE_SECONDS cfg
  <> now_refresh + TOKEN_REFRESH_EXPIRE_SECONDS cfg ->
  jose_decode J (access_token_at J cfg sub now_access)
    (TOKEN_SECRET_KEY cfg) [TOKEN_ALGORITHM cfg] now3
  = Ok (to_encode (now_access + TOKEN_EXPIRE_SECONDS cfg) sub) ->
  jose_decode J (refresh_token_at J cfg sub now_refresh)
    (TOKEN_SECRET_KEY cfg) [TOKEN_ALGORITHM cfg] now3
  = Ok (to_encode (now_refresh + TOKEN_REFRESH_EXPIRE_SECONDS cfg) sub) ->
  Stated.rotation_succeeds J cfg sub token rt multi_login now_access now_refresh st.
Proof.
  intros Hget Hrt Ha Hr Hsep Hlit Hna Hnr Hexp Hda Hdr.
  pose proof Hsep as Hsep'. rewrite separated_sym in Hsep'.
  eexists _, _. split; [now apply create_new_token_eq|].
  cbn [new_access_token new_refresh_token new_access_token_expire_time
         new_refresh_token_expire_time].
  repeat split.
  - intros E. rewrite E in Hda.
    assert (Some (CInt (now_access + TOKEN_EXPIRE_SECONDS cfg))
            = Some (CInt (now_refresh + TOKEN_REFRESH_EXPIRE_SECONDS cfg))) as Hc.
    { rewrite <- !(to_encode_exp _ sub).
      set (ca := to_encode _ sub) in *. set (cr := to_encode _ sub) in *.
      clearbody ca cr. congruence. }
    congruence.
  - rewrite !lookup_delete_keys.
    rewrite !decide_False.
    + rewrite lookup_issued_other; auto using scope_prefix_separated.
      rewrite lookup_issued_new. eauto.
    + rewrite list_elem_of_singleton. intros E. apply scoped_key_inj in E. congruence.
    + rewrite list_elem_of_singleton. now apply scoped_key_separated.
  - rewrite !lookup_delete_keys.
    rewrite !decide_False.
    + rewrite lookup_issued_new. eauto.
    + rewrite list_elem_of_singleton. now apply scoped_key_separated.
    + rewrite list_elem_of_singleton. intros E. apply scoped_key_inj in E. congruence.
  - rewrite lookup_delete_keys. case_decide; [reflexivity|].
    rewrite lookup_delete_keys. rewrite decide_True; [reflexivity|].
    apply list_elem_of_singleton. reflexivity.
  - rewrite lookup_delete_keys. rewrite decide_True; [reflexivity|].
    apply list_elem_of_singleton. reflexivity.
Qed.

Lemma rotation_with_stored_refresh_token_witness :
  Stated.rotation_succeeds Plain.jose Sample.cfg "7" "7.4600.k" "7.605800.k" false
    1001 1001 Sample.after_login.
Proof.
  apply (rotation_with_stored_refresh_token Plain.jose Sample.cfg
           "7" "7.4600.k" "7.605800.k" false 1001 1001 1001 Sample.after_login);
    vm_compute; congruence.
Defined.

(** C5 — A rotation that mints the tokens handed in again (it reads the
    second in which they were issued) stores their keys and then deletes
    them as the old keys.  It returns successfully, with two tokens
    neither of which is in the store: the access token it returns
    authenticates nobody as the subject, the refresh token it returns
    cannot be rotated, and the rotation the specification describes, whose
    new tokens are present under their scoped keys, does not take
    place. *)
Theorem rotation_in_the_issue_second (J : Jose) (cfg : Settings) (sub : string)
  (multi_login : bool) (now_access now_refresh : Z) (st : store) :
  get (scoped_key (TOKEN_REFRESH_REDIS_PREFIX cfg) sub
         (refresh_token_at J cfg sub now_refresh)) st
  = Some (refresh_token_at J cfg sub now_refresh) ->
  refresh_token_at J cfg sub now_refresh <> "" ->
  0 < TOKEN_EXPIRE_SECONDS cfg ->
  0 < TOKEN_REFRESH_EXPIRE_SECONDS cfg ->
  (exists nt st',
      create_new_token J cfg sub (access_token_at J cfg sub now_access)
        (refresh_token_at J cfg sub now_refresh) multi_login now_access now_refresh st
      = (Ok nt, st')
      /\ new_access_token nt = access_token_at J cfg sub now_access
      /\ new_refresh_token nt = refresh_token_at J cfg sub now_refresh
      /\ st' !! scoped_key (TOKEN_REDIS_PREFIX cfg) sub (new_access_token nt) = None
      /\ st' !! scoped_key (TOKEN_REFRESH_REDIS_PREFIX cfg) sub (new_refresh_token nt)
         = None
      /\ (forall uid now3,
            str_of_int uid = sub ->
            fst (jwt_authentication J cfg (new_access_token nt) now3 st') <> Ok uid)
      /\ (forall token' ml' na nr,
            create_new_token J cfg sub token' (new_refresh_token nt) ml' na nr st'
            = (Raise (TokenError (Some "Refresh Token has expired")), st')))
  /\ ~ Stated.rotation_succeeds J cfg sub (access_token_at J cfg sub now_access)
        (refresh_token_at J cfg sub now_refresh) multi_login now_access now_refresh st.
Proof.
  intros Hget Hrt Ha Hr.
  pose proof (create_new_token_eq J cfg sub (access_token_at J cfg sub now_access)
                (refresh_token_at J cfg sub now_refresh) multi_login
                now_access now_refresh st Hget Hrt Ha Hr) as Hrun.
  set (st1 := issued_store (TOKEN_REFRESH_REDIS_PREFIX cfg) sub
                (refresh_token_at J cfg sub now_refresh)
                (TOKEN_REFRESH_EXPIRE_SECONDS cfg) multi_login
                (issued_store (TOKEN_REDIS_PREFIX cfg) sub
                   (access_token_at J cfg sub now_access)
                   (TOKEN_EXPIRE_SECONDS cfg) multi_login st)) in Hrun.
  assert (delete [scoped_key (TOKEN_REFRESH_REDIS_PREFIX cfg) sub
                    (refresh_token_at J cfg sub now_refresh)]
            (delete [scoped_key (TOKEN_REDIS_PREFIX cfg) sub
                       (access_token_at J cfg sub now_access)] st1)
          !! scoped_key (TOKEN_REDIS_PREFIX cfg) sub (access_token_at J cfg sub now_access)
          = None) as Hak.
  { rewrite lookup_delete_keys. case_decide; [reflexivity|].
    rewrite lookup_delete_keys. rewrite decide_True; [reflexivity|].
    apply list_elem_of_singleton. reflexivity. }
  assert (delete [scoped_key (TOKEN_REFRESH_REDIS_PREFIX cfg) sub
                    (refresh_token_at J cfg sub now_refresh)]
            (delete [scoped_key (TOKEN_REDIS_PREFIX cfg) sub
                       (access_token_at J cfg sub now_access)] st1)
          !! scoped_key (TOKEN_REFRESH_REDIS_PREFIX cfg) sub
               (refresh_token_at J cfg sub now_refresh)
          = None) as Hrk.
  { rewrite lookup_delete_keys. rewrite decide_True; [reflexivity|].
    apply list_elem_of_singleton. reflexivity. }
  split.
  - eexists _, _. split; [exact Hrun|].
    cbn [new_access_token new_refresh_token].
    split; [reflexivity|]. split; [reflexivity|].
    split; [exact Hak|]. split; [exact Hrk|]. split.
    + intros uid now3 Hsub. rewrite jwt_authentication_eq. cbn [fst].
      destruct (jwt_decode J cfg (access_token_at J cfg sub now_access) now3)
        as [u|e]; [|discriminate].
      destruct (Z.eq_dec u uid) as [-> | Hne].
      * unfold get. rewrite Hsub, Hak. discriminate.
      * destruct (truthy_opt truthy_str _); congruence.
    + intros token' ml' na nr.
      unfold create_new_token, mbind, query, throw, get. rewrite Hrk. reflexivity.
  - intros (nt & st' & H & Ea & _ & _ & [e Hin] & _).
    rewrite Ea in Hin. rewrite Hrun in H.
    assert (st' = delete [scoped_key (TOKEN_REFRESH_REDIS_PREFIX cfg) sub
                            (refresh_token_at J cfg sub now_refresh)]
                    (delete [scoped_key (TOKEN_REDIS_PREFIX cfg) sub
                               (access_token_at J cfg sub now_access)] st1)) as ->
      by congruence.
    rewrite Hak in Hin. discriminate.
Qed.

(** The rotation of subject 7 in the second of its login, second 1000. *)
Lemma rotation_in_the_issue_second_witness :
  access_token_at Plain.jose Sample.cfg "7" 1000 = "7.4600.k"
  /\ refresh_token_at Plain.jose Sample.cfg "7" 1000 = "7.605800.k"
  /\ ((exists nt st',
         create_new_token Plain.jose Sample.cfg "7"
           (access_token_at Plain.jose Sample.cfg "7" 1000)
           (refresh_token_at Plain.jose Sample.cfg "7" 1000) false 1000 1000
           Sample.after_login
         = (Ok nt, st')
         /\ new_access_token nt = access_token_at Plain.jose Sample.cfg "7" 1000
         /\ new_refresh_token nt = refresh_token_at Plain.jose Sample.cfg "7" 1000
         /\ st' !! scoped_key (TOKEN_REDIS_PREFIX Sample.cfg) "7" (new_access_token nt)
            = None
         /\ st' !! scoped_key (TOKEN_REFRESH_REDIS_PREFIX Sample.cfg) "7"
                   (new_refresh_token nt)
            = None
         /\ (forall uid now3,
               str_of_int uid = "7" ->
               fst (jwt_authentication Plain.jose Sample.cfg (new_access_token nt) now3 st')
               <> Ok uid)
         /\ (forall token' ml' na nr,
               create_new_token Plain.jose Sample.cfg "7" token' (new_refresh_token nt)
                 ml' na nr st'
               = (Raise (TokenError (Some "Refresh Token has expired")), st')))
      /\ ~ Stated.rotation_succeeds Plain.jose Sample.cfg "7"
            (access_token_at Plain.jose Sample.cfg "7" 1000)
            (refresh_token_at Plain.jose Sample.cfg "7" 1000) false 1000 1000
            Sample.after_login).
Proof.
  split; [vm_compute; reflexivity|]. split; [vm_compute; reflexivity|].
  apply (rotation_in_the_issue_second Plain.jose Sample.cfg "7" false 1000 1000
           Sample.after_login);
    [vm_compute; reflexivity | vm_compute; discriminate | reflexivity | reflexivity].
Defined.

(** What the store holds after that rotation: nothing. *)
Example rotation_in_the_issue_second_empties_the_store :
  map_to_list
    (snd (create_new_token Plain.jose Sample.cfg "7" "7.4600.k" "7.605800.k" false
            1000 1000 Sample.after_login)) = []
  /\ fst (jwt_authentication Plain.jose Sample.cfg "7.4600.k" 1001
            (snd (create_new_token Plain.jose Sample.cfg "7" "7.4600.k" "7.605800.k" false
                    1000 1000 Sample.after_login)))
     = Raise (TokenError (Some "Token has expired")).
Proof. split; vm_compute; reflexivity. Qed.

End TokenService.

(** ** The permission gate *)

Module PermissionGate.
Import Rbac PyFacts StatedGate.

Lemma allow_perms_granted (user_roles : list Role) (code : string) :
  str_in code (allow_perms user_roles) = true <-> granted user_roles code.
Proof.
  rewrite str_in_iff. unfold allow_perms, granted.
  rewrite list_elem_of_In, in_flat_map. split.
  - intros (r & Hr & Hin). apply in_flat_map in Hin as (m & Hm & Hc).
    exists r, m. rewrite !list_elem_of_In. repeat split; auto.
    + destruct (Z.eqb_spec (menu_status m) StatusType.enable); [auto | destruct Hc].
    + destruct (menu_status m =? StatusType.enable); [auto | destruct Hc].
  - intros (r & m & Hr & Hm & Hs & Hc).
    apply list_elem_of_In in Hr. apply list_elem_of_In in Hm. apply list_elem_of_In in Hc.
    exists r. split; [exact Hr|]. apply in_flat_map. exists m. split; [exact Hm|].
    rewrite Hs. exact Hc.
Qed.

Lemma some_role_has_menus (user_roles : list Role) :
  existsb (fun role => (0 <? length (menus role))%nat) user_roles = true
  <-> exists r, r ∈ user_roles /\ menus r <> [].
Proof.
  rewrite existsb_exists. split.
  - intros (r & Hr & Hl). exists r. rewrite list_elem_of_In. split; [exact Hr|].
    intros E. rewrite E in Hl. discriminate.
  - intros (r & Hr & Hm). exists r. rewrite <- list_elem_of_In. split; [exact Hr|].
    destruct (menus r); [congruence | reflexivity].
Qed.

Lemma no_open_data_scope (user_roles : list Role) :
  existsb (fun role => data_scope role =? 1) user_roles = false
  <-> forall r, r ∈ user_roles -> data_scope r <> 1.
Proof.
  split.
  - intros H r Hr E. apply not_true_iff_false in H. apply H.
    apply existsb_exists. exists r. rewrite <- list_elem_of_In.
    split; [exact Hr | now apply Z.eqb_eq].
  - intros H. apply not_true_iff_false. intros E.
    apply existsb_exists in E as (r & Hr & E). apply Z.eqb_eq in E.
    apply (H r); [now apply list_elem_of_In | exact E].
Qed.

Lemma method_test_always_true (m : string) :
  negb (String.eqb m MethodType.GET) || negb (String.eqb m MethodType.OPTIONS) = true.
Proof.
  destruct (String.eqb_spec m MethodType.GET) as [->|]; reflexivity.
Qed.

Section Gate.
Context (enforce : string -> string -> string -> bool) (cfg : Settings).

(** Past the whitelist, the scope check and the superuser exemption, a
    user with roles and menus who is not staff is refused, whatever the
    method. *)
Lemma management_check_ignores_method (q : Request) :
  path q ∉ TOKEN_REQUEST_PATH_EXCLUDE cfg ->
  auth_scopes q <> [] ->
  is_superuser (user q) = false ->
  roles (user q) <> [] ->
  (exists r, r ∈ roles (user q) /\ menus r <> []) ->
  is_staff (user q) = false ->
  rbac_verify enforce cfg q
  = Raise (AuthorizationError
             (Some "This user is prohibited from backend management operations")).
Proof.
  intros Hp Hs Hsu Hr Hm Hst. unfold rbac_verify.
  rewrite <- str_in_iff in Hp. apply not_true_is_false in Hp. rewrite Hp.
  destruct (auth_scopes q) as [|sc scs]; [congruence|]. simpl. rewrite Hsu.
  destruct (roles (user q)) as [|r rs] eqn:R; [congruence|].
  cbn [truthy_list negb raise_if bind].
  apply some_role_has_menus in Hm. rewrite Hm.
  cbn [negb raise_if bind]. rewrite method_test_always_true, Hst. reflexivity.
Qed.

(** In the situation of the code check, the gate is the membership test. *)
Lemma rbac_verify_code_check (q : Request) (code : string) :
  reaches_code_check cfg q code ->
  rbac_verify enforce cfg q
  = raise_if (negb (str_in code (allow_perms (roles (user q))))) (AuthorizationError None).
Proof.
  intros ((Hmode & Hsu & Hr & Hm & Hd & Hc & Hex) & Hp & Hs & Hst & Hne).
  unfold rbac_verify.
  rewrite <- str_in_iff in Hp. apply not_true_is_false in Hp. rewrite Hp.
  destruct (auth_scopes q) as [|sc scs]; [congruence|]. simpl. rewrite Hsu.
  destruct (roles (user q)) as [|r rs] eqn:R; [congruence|].
  cbn [truthy_list negb raise_if bind].
  apply some_role_has_menus in Hm. rewrite Hm.
  cbn [negb raise_if bind]. rewrite method_test_always_true, Hst.
  cbn [negb raise_if bind].
  apply no_open_data_scope in Hd. rewrite Hd.
  rewrite Hmode, Hc. cbn [String.eqb Ascii.eqb Bool.eqb truthy_opt].
  rewrite (truthy_str_ne code Hne). cbn [negb].
  rewrite <- str_in_iff in Hex. apply not_true_is_false in Hex. rewrite Hex.
  reflexivity.
Qed.

(** C8 — With an auth scope present, a superuser is allowed for every
    path and method before any role, menu, staff, data-scope or
    permission-code check, in either permission mode and with any set of
    roles, the empty one included. *)
Theorem superuser_always_allowed (q : Request) :
  auth_scopes q <> [] ->
  is_superuser (user q) = true ->
  rbac_verify enforce cfg q = Ok tt.
Proof.
  intros Hs Hsu. unfold rbac_verify.
  destruct (str_in (path q) (TOKEN_REQUEST_PATH_EXCLUDE cfg)); [reflexivity|].
  destruct (auth_scopes q); [congruence|]. simpl. now rewrite Hsu.
Qed.

(** C6, as the code has it — In role-menu mode, for a request outside the
    whitelist with an auth scope, from a staff user who is not superuser,
    has roles and menus and no role of open data scope, with a non-empty
    attached code outside the exclusion set: the decision is allow exactly
    when the code is one of the comma-separated codes of an enabled menu
    of one of the user's roles, and a denial is the bare
    [AuthorizationError]; adding a comma-free code to an enabled menu of
    one of the roles makes the decision allow. *)
Theorem role_menu_code_decision (q : Request) (code : string) :
  reaches_code_check cfg q code ->
  code_decides enforce cfg q code
  /\ (rbac_verify enforce cfg q <> Ok tt ->
      rbac_verify enforce cfg q = Raise (AuthorizationError None))
  /\ (forall i j r m,
        roles (user q) !! i = Some r ->
        menus r !! j = Some m ->
        menu_status m = StatusType.enable ->
        has_char "," code = false ->
        rbac_verify enforce cfg
          (with_user q (with_role (user q) i (with_menu r j (grant code m))))
        = Ok tt).
Proof.
  intros Hreach. pose proof (rbac_verify_code_check q code Hreach) as Hv.
  split; [|split].
  - unfold code_decides. rewrite Hv, <- allow_perms_granted.
    destruct (str_in code _); simpl; split; congruence.
  - rewrite Hv. destruct (str_in code _); simpl; congruence.
  - intros i j r m Hi Hj Hen Hcomma.
    destruct Hreach as ((Hmode & Hsu & Hr & Hm & Hd & Hc & Hex) & Hp & Hs & Hst & Hne).
    pose proof (lookup_lt_Some _ _ _ Hi) as Li.
    pose proof (lookup_lt_Some _ _ _ Hj) as Lj.
    set (r' := with_menu r j (grant code m)).
    assert (r' ∈ <[i := r']> (roles (user q))) as Hin by now apply list_elem_of_insert.
    assert (grant code m ∈ menus r') as Hmin by now apply list_elem_of_insert.
    rewrite (rbac_verify_code_check _ code).
    + cbn [roles user with_user with_role].
      assert (str_in code (allow_perms (<[i := r']> (roles (user q)))) = true) as ->;
        [|reflexivity].
      apply allow_perms_granted. exists r', (grant code m).
      repeat split; auto. cbn [perms grant].
      change (perms m +:+ "," +:+ code) with (perms m +:+ String "," code).
      rewrite split_app.
      rewrite (split_plain _ code Hcomma). apply elem_of_app. right.
      apply list_elem_of_singleton. reflexivity.
    + repeat split; simpl; auto.
      * intros E. apply (f_equal length) in E. rewrite length_insert in E.
        simpl in E. lia.
      * exists r'. split; [exact Hin|]. intros E. rewrite E in Hmin.
        now apply elem_of_nil in Hmin.
      * intros r0 Hr0. apply list_elem_of_lookup in Hr0 as [k Hk].
        apply list_lookup_insert_Some in Hk as [(_ & <- & _) | (_ & Hk)].
        -- simpl. apply Hd. now apply list_elem_of_lookup_2 in Hi.
        -- apply Hd. now apply list_elem_of_lookup_2 in Hk.
Qed.

End Gate.

Lemma superuser_always_allowed_witness :
  rbac_verify Sample.no_policy Sample.cfg (Sample.request_of "DELETE" Sample.root None)
  = Ok tt.
Proof.
  apply (superuser_always_allowed Sample.no_policy Sample.cfg
           (Sample.request_of "DELETE" Sample.root None));
    [discriminate | reflexivity].
Defined.

(** C3 — The management check refuses a [GET] request of a user who is
    not staff (and has roles and menus): the test on the method holds for
    every method, so the check does not let [GET] and [OPTIONS] through. *)
Theorem get_request_of_non_staff_refused :
  rbac_verify Sample.no_policy Sample.cfg
    (Sample.request_of "GET" Sample.clerk (Some "sys:user:list"))
  = Raise (AuthorizationError
             (Some "This user is prohibited from backend management operations"))
  /\ rbac_verify Sample.no_policy Sample.cfg
       (Sample.request_of "OPTIONS" Sample.clerk (Some "sys:user:list"))
     = Raise (AuthorizationError
                (Some "This user is prohibited from backend management operations")).
Proof. split; reflexivity. Qed.

Lemma sample_code_check_case (m : string) (u : User) :
  is_superuser u = false -> roles u = [Sample.clerk_role] ->
  code_check_case Sample.cfg (Sample.request_of m u (Some "sys:user:list"))
    "sys:user:list".
Proof.
  intros Hsu Hr. unfold code_check_case. simpl. rewrite Hr.
  repeat split; auto; try discriminate.
  - exists Sample.clerk_role. split; [apply list_elem_of_singleton; reflexivity|].
    discriminate.
  - intros r Hin. apply list_elem_of_singleton in Hin as ->. discriminate.
  - intros Hin. apply list_elem_of_singleton in Hin. discriminate.
Qed.

Lemma role_menu_code_decision_witness :
  code_decides Sample.no_policy Sample.cfg
    (Sample.request_of "POST" Sample.officer (Some "sys:user:list")) "sys:user:list"
  /\ rbac_verify Sample.no_policy Sample.cfg
       (Sample.request_of "POST" Sample.officer (Some "sys:user:list")) = Ok tt.
Proof.
  assert (reaches_code_check Sample.cfg
            (Sample.request_of "POST" Sample.officer (Some "sys:user:list"))
            "sys:user:list") as Hreach.
  { split; [now apply sample_code_check_case|]. simpl. repeat split; try discriminate.
    intros Hin. apply list_elem_of_singleton in Hin. discriminate. }
  split.
  - exact (proj1 (role_menu_code_decision Sample.no_policy Sample.cfg _ _ Hreach)).
  - reflexivity.
Defined.

(** A code that contains a comma is never one of the codes of a menu,
    also after it was added to the menu's string. *)
Example code_with_comma_not_granted :
  str_in "sys:user:edit,del"
    (allow_perms [with_menu Sample.clerk_role 0 (grant "sys:user:edit,del" Sample.user_menu)])
  = false.
Proof. reflexivity. Qed.

(** C6, as stated, fails for a user who is not staff: in the situation
    the claim describes, with the attached code granted by an enabled
    menu, a [POST] request is refused by the management check. *)
Lemma non_staff_with_code_counterexample :
  code_check_case Sample.cfg
    (Sample.request_of "POST" Sample.clerk (Some "sys:user:list")) "sys:user:list"
  /\ granted (roles Sample.clerk) "sys:user:list"
  /\ ~ code_decides Sample.no_policy Sample.cfg
         (Sample.request_of "POST" Sample.clerk (Some "sys:user:list")) "sys:user:list".
Proof.
  assert (granted (roles Sample.clerk) "sys:user:list") as Hg.
  { apply allow_perms_granted. reflexivity. }
  split; [now apply sample_code_check_case|]. split; [exact Hg|].
  unfold code_decides. intros [_ H]. specialize (H Hg). discriminate H.
Qed.

End PermissionGate.

(** * Further code of the security layer and of the start-up checks *)

(** ** [get_token] of [backend/common/security/jwt.py] *)

Module Bearer.

(** [request.headers]: the header list of the request, names in lower
    case as the server hands them over. *)
Abbreviation headers := (list (string * string)).

(** [str.lower()] on ASCII letters. *)
Definition lower_char (c : ascii) : ascii :=
  let n := nat_of_ascii c in
  if ((65 <=? n)%nat && (n <=? 90)%nat) then ascii_of_nat (n + 32) else c.

Fixpoint lower (s : string) : string :=
  match s with
  | EmptyString => EmptyString
  | String c s' => String (lower_char c) (lower s')
  end.

(** [Headers.get(key)]: the value of the first header named [key.lower()]. *)
Fixpoint headers_get (key : string) (hs : headers) : option string :=
  match hs with
  | [] => None
  | (name, v) :: rest =>
      if String.eqb name (lower key) then Some v else headers_get key rest
  end.

(** [s.partition(' ')]: the text before the first space and the text
    after it (both the whole string and the empty one when there is no
    space). *)
Fixpoint partition_space (s : string) : string * string :=
  match s with
  | EmptyString => (EmptyString, EmptyString)
  | String c s' =>
      if Ascii.eqb c " " then (EmptyString, s')
      else let '(scheme, param) := partition_space s' in (String c scheme, param)
  end.

(** [fastapi.security.utils.get_authorization_scheme_param] *)
Definition get_authorization_scheme_param (authorization : option string)
  : string * string :=
  if negb (truthy_opt truthy_str authorization) then (EmptyString, EmptyString)
  else match authorization with
       | Some v => partition_space v
       | None => (EmptyString, EmptyString)
       end.

Definition get_token (request_headers : headers) : result string :=
  let authorization := headers_get "Authorization" request_headers in
  let '(scheme, token) := get_authorization_scheme_param authorization in
  bind (raise_if (negb (truthy_opt truthy_str authorization)
                  || negb (String.eqb (lower scheme) "bearer"))
          (TokenError (Some "Invalid token")))
    (fun _ => Ok token).

End Bearer.

(** ** [backend/common/security/permission.py] *)

Module Permission.

(** The value a route hands to [RequestPermission]: a [str] or anything
    else. *)
Inductive py_value : Type :=
| PStr (s : string)
| PNotStr.

Inductive server_exn : Type := ServerError.

(** [RequestPermission(value).__call__(request)]: the request with its
    state after the call, or the error raised. *)
Definition call (settings : Settings) (value : py_value) (request : Request)
  : server_exn + Request :=
  if String.eqb (PERMISSION_MODE settings) "role-menu" then
    match value with
    | PNotStr => inl ServerError
    | PStr v =>
        inr {| path := path request; method := method request;
               auth_scopes := auth_scopes request; user := user request;
               state_permission := Some v |}
    end
  else inr request.

End Permission.

(** ** [backend/utils/health_check.py], [backend/utils/openapi.py] and
    [register_router] of [backend/core/registrar.py] *)

Module Routes.

(** An entry of [app.routes]: an [APIRoute] with its name and operation
    id, or a route of another class (a mount, a plain route). *)
Inductive route : Type :=
| APIRoute (name : string) (operation_id : option string)
| OtherRoute (name : string).

Inductive start_exn : Type := ValueErrorOf (msg : string).

(** The loop of [ensure_unique_route_names], from the set of names seen
    so far. *)
Fixpoint unique_from (temp_routes : gset string) (routes : list route)
  : start_exn + unit :=
  match routes with
  | [] => inr tt
  | APIRoute name _ :: rest =>
      if bool_decide (name ∈ temp_routes)
      then inl (ValueErrorOf ("Non-unique route name: " +:+ name))
      else unique_from ({[name]} ∪ temp_routes) rest
  | OtherRoute _ :: rest => unique_from temp_routes rest
  end.

Definition ensure_unique_route_names (routes : list route) : start_exn + unit :=
  unique_from ∅ routes.

(** [simplify_operation_ids]: the routes after the loop. *)
Definition simplify_operation_ids (routes : list route) : list route :=
  map (fun r =>
         match r with
         | APIRoute name _ => APIRoute name (Some name)
         | OtherRoute name => OtherRoute name
         end) routes.

(** The two calls that close [register_router], on [app.routes] as
    [include_router] left them. *)
Definition register_router (routes : list route) : start_exn + list route :=
  match ensure_unique_route_names routes with
  | inl e => inl e
  | inr _ => inr (simplify_operation_ids routes)
  end.

(** The names of the [APIRoute]s, in order. *)
Definition api_names (routes : list route) : list string :=
  omap (fun r => match r with APIRoute name _ => Some name | OtherRoute _ => None end)
    routes.

Definition api_operation_ids (routes : list route) : list (option string) :=
  omap (fun r => match r with APIRoute _ oid => Some oid | OtherRoute _ => None end)
    routes.

End Routes.

(** ** [ServerInfo.fmt_seconds] of [backend/utils/server_info.py] *)

Module ServerInfo.

(** [' '.join(parts)] *)
Fixpoint join_space (parts : list string) : string :=
  match parts with
  | [] => EmptyString
  | [p] => p
  | p :: rest => p +:+ " " +:+ join_space rest
  end.

(** [parts.append('{} unit'.format(n))] when [n] is not zero. *)
Definition part (n : Z) (unit_name : string) : list string :=
  if truthy_int n then [str_of_int n +:+ " " +:+ unit_name] else [].

Definition fmt_seconds (seconds : Z) : string :=
  let days := seconds / 86400 in
  let rem := seconds mod 86400 in
  let hours := rem / 3600 in
  let rem := rem mod 3600 in
  let minutes := rem / 60 in
  let seconds := rem mod 60 in
  let parts :=
    (part days "days" ++ part hours "hours" ++ part minutes "minutes"
       ++ part seconds "seconds")%list in
  if (length parts =? 0)%nat then "0 seconds" else join_space parts.

End ServerInfo.

(** ** More on the token service *)

Module SessionFacts.
Import Jwt PyFacts RedisFacts JwtFacts.

Lemma length_app (a b : string) :
  String.length (a +:+ b) = (String.length a + String.length b)%nat.
Proof.
  induction a as [|c a IH]; [reflexivity|]. rewrite app_cons. simpl. now rewrite IH.
Qed.

Lemma app_inv_tail (a b t : string) : a +:+ t = b +:+ t -> a = b.
Proof.
  revert b. induction a as [|c a IH]; intros [|d b] H.
  - reflexivity.
  - apply (f_equal String.length) in H. rewrite app_empty_l, app_cons in H.
    simpl in H. rewrite length_app in H. lia.
  - apply (f_equal String.length) in H. rewrite app_empty_l, app_cons in H.
    simpl in H. rewrite length_app in H. lia.
  - rewrite !app_cons in H. injection H as -> H. f_equal. now apply IH.
Qed.

Lemma scoped_key_sub_inj (prefix s1 s2 token : string) :
  scoped_key prefix s1 token = scoped_key prefix s2 token -> s1 = s2.
Proof.
  unfold scoped_key. intros H. repeat (apply String.app_inj in H).
  now apply app_inv_tail in H.
Qed.

Lemma no_colon_uint (d : Decimal.uint) :
  has_char ":" (NilEmpty.string_of_uint d) = false.
Proof. induction d; simpl; auto. Qed.

Lemma no_colon_str_of_int (n : Z) : has_char ":" (str_of_int n) = false.
Proof.
  unfold str_of_int, NilZero.string_of_int, NilZero.string_of_uint.
  destruct (Z.to_int n) as [d|d]; destruct d; simpl; auto using no_colon_uint.
Qed.

(** The text before the first colon of a key is determined by the key. *)
Lemma before_colon_inj (a b x y : string) :
  has_char ":" a = false -> has_char ":" b = false ->
  a +:+ ":" +:+ x = b +:+ ":" +:+ y -> a = b.
Proof.
  revert b. induction a as [|c a IH]; intros [|d b] Ha Hb H.
  - reflexivity.
  - rewrite app_empty_l, !app_cons in H. injection H as <- _.
    simpl in Hb. discriminate.
  - rewrite app_empty_l, !app_cons in H. injection H as -> _.
    simpl in Ha. discriminate.
  - rewrite !app_cons in H. injection H as -> H. f_equal.
    simpl in Ha, Hb. apply orb_false_iff in Ha as [_ Ha]. apply orb_false_iff in Hb as [_ Hb].
    now apply IH.
Qed.

Lemma scoped_key_id_inj (prefix : string) (n m : Z) (t1 t2 : string) :
  scoped_key prefix (str_of_int n) t1 = scoped_key prefix (str_of_int m) t2 -> n = m.
Proof.
  unfold scoped_key. intros H. do 2 apply String.app_inj in H.
  apply str_of_int_inj.
  eapply before_colon_inj; eauto using no_colon_str_of_int.
Qed.

Lemma scope_prefix_longer (prefix sub sub' token : string) :
  String.prefix sub sub' = true ->
  String.prefix (scope_prefix prefix sub) (scoped_key prefix sub' token) = true.
Proof.
  intros H. apply prefix_split in H as [r ->].
  unfold scope_prefix, scoped_key.
  replace (prefix +:+ ":" +:+ (sub +:+ r) +:+ ":" +:+ token)
    with ((prefix +:+ ":" +:+ sub) +:+ r +:+ ":" +:+ token)
    by now rewrite !app_assoc.
  apply prefix_app.
Qed.

Lemma authentication_by_key (J : Jose) (cfg : Settings) (token : string) (now : Z)
  (st1 st2 : store) :
  (forall uid,
      jwt_decode J cfg token now = Ok uid ->
      truthy_opt truthy_str
        (get (scoped_key (TOKEN_REDIS_PREFIX cfg) (str_of_int uid) token) st1)
      = truthy_opt truthy_str
          (get (scoped_key (TOKEN_REDIS_PREFIX cfg) (str_of_int uid) token) st2)) ->
  fst (jwt_authentication J cfg token now st1)
  = fst (jwt_authentication J cfg token now st2).
Proof.
  intros H. rewrite !jwt_authentication_eq. simpl.
  destruct (jwt_decode J cfg token now) as [uid|e]; [|reflexivity].
  now rewrite (H uid eq_refl).
Qed.

End SessionFacts.

Module Sessions.
Import Jwt PyFacts RedisFacts JwtFacts SessionFacts.

(** X1 — Issue, then authenticate. For a subject id [n] other than zero
    passed as its decimal string and a positive access lifetime, the token
    an issue returns authenticates as [n] on the store the issue leaves,
    with multi-session enabled or disabled, whatever the store held
    before, as long as the token is not empty and verifies. *)
Theorem issue_then_authenticate (J : Jose) (cfg : Settings) (n : Z)
  (multi_login : bool) (now now' : Z) (st : store) :
  n <> 0 ->
  0 < TOKEN_EXPIRE_SECONDS cfg ->
  access_token_at J cfg (str_of_int n) now <> "" ->
  jose_decode J (access_token_at J cfg (str_of_int n) now)
    (TOKEN_SECRET_KEY cfg) [TOKEN_ALGORITHM cfg] now'
  = Ok (to_encode (now + TOKEN_EXPIRE_SECONDS cfg) (str_of_int n)) ->
  exists t st',
    create_access_token J cfg (str_of_int n) multi_login now st = (Ok t, st')
    /\ access_token_expire_time t = now + TOKEN_EXPIRE_SECONDS cfg
    /\ jwt_authentication J cfg (access_token t) now' st' = (Ok n, st').
Proof.
  intros Hn Hpos Hne Hd. eexists _, _.
  split; [now apply create_access_token_eq|]. split; [reflexivity|].
  cbn [access_token]. rewrite jwt_authentication_eq.
  rewrite (TokenService.jwt_decode_minted J cfg _ _ _ n Hn Hd).
  unfold get. rewrite lookup_issued_new. simpl. now rewrite truthy_str_ne.
Qed.

Lemma issue_then_authenticate_witness :
  exists t st',
    create_access_token Plain.jose Sample.cfg "7" true 1000 Sample.after_login
    = (Ok t, st')
    /\ access_token_expire_time t = 4600
    /\ jwt_authentication Plain.jose Sample.cfg (access_token t) 1500 st' = (Ok 7, st').
Proof.
  apply (issue_then_authenticate Plain.jose Sample.cfg 7 true 1000 1500
           Sample.after_login);
    vm_compute; congruence.
Defined.

(** X2 — A subject string that is not the decimal string of its id gets a
    token that does not authenticate. When [sub] is no integer, reads as
    zero, or differs from [str(int(sub))] (leading zeros, a sign, spaces),
    and the store holds no key for the token under the decimal id, the
    token the issue returns is refused with [TokenError] on the store the
    issue leaves. *)
Theorem odd_subject_token_is_refused (J : Jose) (cfg : Settings) (sub : string)
  (multi_login : bool) (now now' : Z) (st : store) :
  0 < TOKEN_EXPIRE_SECONDS cfg ->
  jose_decode J (access_token_at J cfg sub now)
    (TOKEN_SECRET_KEY cfg) [TOKEN_ALGORITHM cfg] now'
  = Ok (to_encode (now + TOKEN_EXPIRE_SECONDS cfg) sub) ->
  (forall n,
      int_of_str sub = Some n -> n <> 0 ->
      str_of_int n <> sub
      /\ st !! scoped_key (TOKEN_REDIS_PREFIX cfg) (str_of_int n)
               (access_token_at J cfg sub now) = None) ->
  exists t st',
    create_access_token J cfg sub multi_login now st = (Ok t, st')
    /\ exists msg,
        fst (jwt_authentication J cfg (access_token t) now' st')
        = Raise (TokenError msg).
Proof.
  intros Hpos Hd Hodd. eexists _, _.
  split; [now apply create_access_token_eq|].
  cbn [access_token]. rewrite jwt_authentication_eq. simpl.
  destruct (jwt_decode J cfg (access_token_at J cfg sub now) now') as [uid|e] eqn:D.
  - apply jwt_decode_ok in D as (p & Hp & Hs & Hu).
    rewrite Hd in Hp. injection Hp as <-. rewrite TokenService.to_encode_sub in Hs.
    simpl in Hs. destruct (int_of_str sub) as [k|] eqn:K; [|discriminate].
    injection Hs as ->. destruct (Hodd uid eq_refl Hu) as [Hne Hfree].
    unfold get, issued_store. rewrite lookup_insert_ne.
    2:{ intros E. apply scoped_key_sub_inj in E. congruence. }
    destruct multi_login.
    + rewrite Hfree. simpl. eauto.
    + rewrite lookup_delete_prefix, Hfree.
      destruct (redis_match _ _ && _); simpl; eauto.
  - destruct (jwt_decode_token_error J cfg _ _ _ D) as [-> | ->]; eauto.
Qed.

Lemma odd_subject_token_is_refused_witness :
  exists t st',
    create_access_token Plain.jose Sample.cfg "007" false 1000 ∅ = (Ok t, st')
    /\ exists msg,
        fst (jwt_authentication Plain.jose Sample.cfg (access_token t) 1500 st')
        = Raise (TokenError msg).
Proof.
  apply (odd_subject_token_is_refused Plain.jose Sample.cfg "007" false 1000 1500 ∅).
  - reflexivity.
  - vm_compute. reflexivity.
  - intros n H _. vm_compute in H. injection H as <-.
    split; [vm_compute; discriminate | apply lookup_empty].
Defined.

(** X3 — With multi-session enabled an issue logs nobody out: every token
    that authenticated before the issue authenticates after it, as the
    same id. *)
Theorem multi_login_issue_keeps_sessions (J : Jose) (cfg : Settings) (sub : string)
  (now : Z) (st : store) (token0 : string) (now' uid : Z) :
  0 < TOKEN_EXPIRE_SECONDS cfg ->
  access_token_at J cfg sub now <> "" ->
  fst (jwt_authentication J cfg token0 now' st) = Ok uid ->
  fst (jwt_authentication J cfg token0 now'
         (snd (create_access_token J cfg sub true now st))) = Ok uid.
Proof.
  intros Hpos Hne H0. rewrite create_access_token_eq by exact Hpos. cbn [snd].
  rewrite jwt_authentication_eq in *. simpl in *.
  destruct (jwt_decode J cfg token0 now') as [u|e]; [|discriminate].
  unfold get, issued_store in *. rewrite lookup_insert.
  case_decide as E.
  - simpl. rewrite truthy_str_ne by exact Hne. destruct (truthy_opt _ _); congruence.
  - exact H0.
Qed.

Lemma multi_login_issue_keeps_sessions_witness :
  fst (jwt_authentication Plain.jose Sample.cfg "7.4600.k" 1500
         (snd (create_access_token Plain.jose Sample.cfg "7" true 1200
                 Sample.after_login))) = Ok 7.
Proof.
  apply (multi_login_issue_keeps_sessions Plain.jose Sample.cfg "7" 1200
           Sample.after_login "7.4600.k" 1500 7);
    vm_compute; congruence.
Defined.

(** X4 — Issuing a refresh token does not change who authenticates, when
    the access and refresh prefixes do not start one another (and the
    refresh scope is free of glob metacharacters where it is cleared). *)
Theorem refresh_issue_keeps_authentication (J : Jose) (cfg : Settings) (sub : string)
  (multi_login : bool) (now : Z) (st : store) (token0 : string) (now' : Z) :
  0 < TOKEN_REFRESH_EXPIRE_SECONDS cfg ->
  separated (TOKEN_REDIS_PREFIX cfg) (TOKEN_REFRESH_REDIS_PREFIX cfg) = true ->
  (multi_login = false ->
   literal (scope_prefix (TOKEN_REFRESH_REDIS_PREFIX cfg) sub) = true) ->
  fst (jwt_authentication J cfg token0 now'
         (snd (create_refresh_token J cfg sub multi_login now st)))
  = fst (jwt_authentication J cfg token0 now' st).
Proof.
  intros Hpos Hsep Hlit. rewrite create_refresh_token_eq by exact Hpos. cbn [snd].
  apply authentication_by_key. intros uid _. unfold get.
  rewrite lookup_issued_other; auto.
  apply TokenService.scope_prefix_separated.
  now rewrite TokenService.separated_sym.
Qed.

Lemma refresh_issue_keeps_authentication_witness :
  fst (jwt_authentication Plain.jose Sample.cfg "7.4600.k" 1500
         (snd (create_refresh_token Plain.jose Sample.cfg "7" false 1200
                 Sample.after_login)))
  = fst (jwt_authentication Plain.jose Sample.cfg "7.4600.k" 1500 Sample.after_login).
Proof.
  apply (refresh_issue_keeps_authentication Plain.jose Sample.cfg "7" false 1200
           Sample.after_login "7.4600.k" 1500);
    vm_compute; congruence.
Defined.

(** X5 — The scope cleared by a single-session issue is a string prefix
    without the closing colon: issuing for subject [n] logs out every
    other subject [m] whose decimal id starts with the decimal id of [n]
    (7 and 70, 71, 700, ...), whatever token [m] holds. *)
Theorem single_session_issue_logs_out_longer_ids (J : Jose) (cfg : Settings)
  (n m : Z) (now : Z) (st : store) (token0 : string) (now' : Z) :
  n <> m ->
  String.prefix (str_of_int n) (str_of_int m) = true ->
  literal (TOKEN_REDIS_PREFIX cfg) = true ->
  0 < TOKEN_EXPIRE_SECONDS cfg ->
  jwt_decode J cfg token0 now' = Ok m ->
  fst (jwt_authentication J cfg token0 now'
         (snd (create_access_token J cfg (str_of_int n) false now st)))
  = Raise (TokenError (Some "Token has expired")).
Proof.
  intros Hnm Hpre Hlit Hpos Hd. rewrite create_access_token_eq by exact Hpos. cbn [snd].
  rewrite jwt_authentication_eq. simpl. rewrite Hd. unfold get.
  rewrite lookup_issued_scope; auto using literal_scope_prefix, scope_prefix_longer.
  intros E. apply scoped_key_id_inj in E. congruence.
Qed.

Lemma single_session_issue_logs_out_longer_ids_witness :
  fst (jwt_authentication Plain.jose Sample.cfg "70.4600.k" 1500
         (snd (create_access_token Plain.jose Sample.cfg "7" false 1200
                 (snd (create_access_token Plain.jose Sample.cfg "70" false 1000 ∅)))))
  = Raise (TokenError (Some "Token has expired")).
Proof.
  apply (single_session_issue_logs_out_longer_ids Plain.jose Sample.cfg 7 70 1200
           (snd (create_access_token Plain.jose Sample.cfg "70" false 1000 ∅))
           "70.4600.k" 1500);
    vm_compute; congruence.
Defined.

End Sessions.

(** ** More on the store and on decoding *)

(** [key] is spared by the [exclude] argument of [delete_prefix]. *)
Definition spared (exclude : exclude_arg) (key : string) : Prop :=
  match exclude with
  | NoExclude => False
  | ExcludeStr e => key = e
  | ExcludeList l => key ∈ l
  end.

Module StoreFacts.
Import Jwt PyFacts RedisFacts JwtFacts.

Lemma kept_for_deletion_spared (exclude : exclude_arg) (key : string) :
  kept_for_deletion exclude key = false <-> spared exclude key.
Proof.
  destruct exclude as [|e|l]; simpl.
  - split; [discriminate | tauto].
  - rewrite negb_false_iff. apply String.eqb_eq.
  - rewrite negb_false_iff. apply str_in_iff.
Qed.

(** X6 — [delete_prefix] with a prefix free of glob metacharacters removes
    exactly the keys that start with the prefix and are not spared by
    [exclude]: such a key is gone, a spared key and a key that does not
    start with the prefix keep their entries. *)
Theorem delete_prefix_clears_the_scope (prefix : string) (exclude : exclude_arg)
  (st : store) (k : string) :
  literal prefix = true ->
  prefix <> "" ->
  (String.prefix prefix k = true -> ~ spared exclude k ->
   delete_prefix prefix exclude st !! k = None)
  /\ (String.prefix prefix k = false ->
      delete_prefix prefix exclude st !! k = st !! k)
  /\ (spared exclude k -> delete_prefix prefix exclude st !! k = st !! k).
Proof.
  intros Hlit Hne. rewrite lookup_delete_prefix, redis_match_literal by assumption.
  repeat split.
  - intros -> Hs. destruct (kept_for_deletion exclude k) eqn:K; [reflexivity|].
    apply kept_for_deletion_spared in K. contradiction.
  - intros ->. reflexivity.
  - intros Hs. apply kept_for_deletion_spared in Hs. rewrite Hs.
    now rewrite andb_false_r.
Qed.

Lemma delete_prefix_clears_the_scope_witness :
  (delete_prefix "access:7" (ExcludeStr "access:7:keep")
     (<["access:7:keep" := Entry "a" 60]>
        (<["access:7:drop" := Entry "b" 60]> (<["refresh:7:x" := Entry "c" 60]> ∅)))
   !! "access:7:drop" = None)
  /\ delete_prefix "access:7" (ExcludeStr "access:7:keep")
       (<["access:7:keep" := Entry "a" 60]>
          (<["access:7:drop" := Entry "b" 60]> (<["refresh:7:x" := Entry "c" 60]> ∅)))
     !! "access:7:keep" = Some (Entry "a" 60).
Proof.
  split.
  - apply (proj1 (delete_prefix_clears_the_scope "access:7" (ExcludeStr "access:7:keep")
                    _ "access:7:drop" eq_refl ltac:(discriminate)));
      [reflexivity | simpl; discriminate].
  - rewrite (proj2 (proj2 (delete_prefix_clears_the_scope "access:7"
                             (ExcludeStr "access:7:keep") _ "access:7:keep"
                             eq_refl ltac:(discriminate))) eq_refl).
    vm_compute. reflexivity.
Defined.

(** X7 — Whatever the prefix (glob metacharacters included) and the
    [exclude] argument, [delete_prefix] only removes keys (what is left is
    a part of the store, with the same entries), never removes a spared
    key, and a second run changes nothing. *)
Theorem delete_prefix_only_removes (prefix : string) (exclude : exclude_arg)
  (st : store) :
  delete_prefix prefix exclude st ⊆ st
  /\ (forall k, spared exclude k -> delete_prefix prefix exclude st !! k = st !! k)
  /\ delete_prefix prefix exclude (delete_prefix prefix exclude st)
     = delete_prefix prefix exclude st.
Proof.
  repeat split.
  - apply map_subseteq_spec. intros k e. rewrite lookup_delete_prefix.
    destruct (redis_match _ _ && _); [discriminate | auto].
  - intros k Hs. rewrite lookup_delete_prefix.
    apply kept_for_deletion_spared in Hs. rewrite Hs. now rewrite andb_false_r.
  - apply map_eq. intros k. rewrite !lookup_delete_prefix.
    destruct (redis_match _ _ && _); reflexivity.
Qed.

Section Decoding.
Context (J : Jose) (cfg : Settings).

(** X8 — [jwt_decode] tells two failures apart and no more: it raises
    [TokenError('Token has expired')] exactly when the library raises
    [ExpiredSignatureError], [TokenError('Invalid token')] for every other
    error of the library, and nothing but these two. *)
Theorem jwt_decode_reports_two_failures (token : string) (now : Z) :
  (jwt_decode J cfg token now = Raise (TokenError (Some "Token has expired"))
   <-> jose_decode J token (TOKEN_SECRET_KEY cfg) [TOKEN_ALGORITHM cfg] now
       = Raise ExpiredSignatureError)
  /\ (forall e,
        jose_decode J token (TOKEN_SECRET_KEY cfg) [TOKEN_ALGORITHM cfg] now = Raise e ->
        e <> ExpiredSignatureError ->
        jwt_decode J cfg token now = Raise (TokenError (Some "Invalid token")))
  /\ (forall e,
        jwt_decode J cfg token now = Raise e ->
        e = TokenError (Some "Token has expired")
        \/ e = TokenError (Some "Invalid token")).
Proof.
  split; [|split].
  - unfold jwt_decode, try_except, jwt_decode_body, bind, raise_if.
    destruct (jose_decode J token _ _ now) as [p|e].
    + unfold int_of_claim.
      destruct (p !! "sub") as [[s|k]|]; try destruct (int_of_str s);
        try destruct (negb (truthy_int _)); split; discriminate.
    + split; [destruct e; congruence | intros [= ->]; reflexivity].
  - intros e He Hne. unfold jwt_decode, try_except, jwt_decode_body, bind.
    rewrite He. destruct e; congruence.
  - apply jwt_decode_token_error.
Qed.

End Decoding.

Lemma jwt_decode_reports_two_failures_witness :
  jwt_decode Plain.jose Sample.cfg "7.4600.k" 5000
  = Raise (TokenError (Some "Token has expired"))
  /\ jwt_decode Plain.jose Sample.cfg "7.4600.other" 1000
     = Raise (TokenError (Some "Invalid token")).
Proof.
  split.
  - apply (proj1 (jwt_decode_reports_two_failures Plain.jose Sample.cfg "7.4600.k" 5000)).
    vm_compute. reflexivity.
  - apply (proj1 (proj2 (jwt_decode_reports_two_failures Plain.jose Sample.cfg
                           "7.4600.other" 1000)) JWTError);
      [vm_compute; reflexivity | discriminate].
Defined.

(** X9 — [get_current_user] returns only the row stored under the id, and
    only when the user is enabled, its department (if it has one) is
    enabled and not deleted, and its roles (if it has any) are not all
    disabled. *)
Theorem get_current_user_returns_active_user (db : database) (pk : Z) (u : User) :
  get_current_user db pk = Ok u ->
  db !! pk = Some u
  /\ status u <> 0
  /\ dept_passes u
  /\ (roles u = [] \/ Exists (fun r => role_status r <> 0) (roles u)).
Proof.
  unfold get_current_user. destruct (db !! pk) as [v|]; [|discriminate].
  unfold bind, raise_if, truthy_int.
  destruct (Z.eqb_spec (status v) 0) as [|Hs]; [discriminate|]. simpl.
  assert (dept_passes v \/
          (if truthy_opt (fun n : Z => negb (n =? 0)) (dept_id v)
           then match dept v with
                | Some d =>
                    match (if negb (negb (dept_status d =? 0))
                           then Raise (AuthorizationError
                                         (Some "User's department has been locked"))
                           else Ok tt) with
                    | Ok _ =>
                        if del_flag d
                        then Raise (AuthorizationError
                                      (Some "User's department has been deleted"))
                        else Ok tt
                    | Raise e => Raise e
                    end
                | None => Raise AttributeError
                end
           else Ok tt) <> Ok tt) as [Hd | Hd].
  { unfold dept_passes, has_dept.
    destruct (dept_id v) as [i|]; [|left; left; reflexivity]. simpl.
    destruct (Z.eqb_spec i 0) as [->|Hi]; [left; right; left; reflexivity|]. simpl.
    destruct (dept v) as [d|]; [|right; discriminate].
    destruct (Z.eqb_spec (dept_status d) 0) as [|Hds]; [right; discriminate|]. simpl.
    destruct (del_flag d) eqn:F; [right; discriminate|].
    left. right. right. exists d. repeat split; eauto. }
  2:{ destruct (if truthy_opt _ (dept_id v) then _ else _) as [[]|e];
        [congruence | discriminate]. }
  destruct (if truthy_opt _ (dept_id v) then _ else _) as [[]|e]; [|discriminate].
  destruct (roles v) as [|r rs] eqn:R.
  - simpl. intros [= <-]. rewrite R. auto.
  - simpl truthy_list. cbv iota.
    destruct (forallb _ _) eqn:F; [discriminate|]. intros [= <-].
    repeat split; auto. right. rewrite R.
    apply Exists_exists. apply not_true_iff_false in F.
    destruct (decide (Exists (fun r => role_status r <> 0) (r :: rs))) as [E|E].
    + apply Exists_exists in E. exact E.
    + exfalso. apply F. apply forallb_forall. intros x Hx.
      apply in_map_iff in Hx as (r' & <- & Hr'). apply Z.eqb_eq.
      destruct (Z.eq_dec (role_status r') 0) as [|Hne]; [assumption|].
      exfalso. apply E. apply Exists_exists. exists r'.
      split; [now apply list_elem_of_In | exact Hne].
Qed.

Lemma get_current_user_returns_active_user_witness :
  status Sample.officer <> 0
  /\ (roles Sample.officer = []
      \/ Exists (fun r => role_status r <> 0) (roles Sample.officer)).
Proof.
  pose proof (get_current_user_returns_active_user {[ 8 := Sample.officer ]} 8
                Sample.officer eq_refl) as (_ & H1 & _ & H2).
  split; assumption.
Defined.

End StoreFacts.

(** ** More on rotation *)

Module Rotation.
Import Jwt PyFacts RedisFacts JwtFacts.

Section Rotating.
Context (J : Jose) (cfg : Settings).

(** A rotation that succeeds ends with the refresh key it was given
    deleted. *)
Lemma rotation_consumes_refresh_key (sub token rt : string) (ml : bool) (na nr : Z)
  (st st' : store) (nt : NewToken) :
  create_new_token J cfg sub token rt ml na nr st = (Ok nt, st') ->
  st' !! scoped_key (TOKEN_REFRESH_REDIS_PREFIX cfg) sub rt = None.
Proof.
  unfold create_new_token, mbind at 1, query.
  destruct (negb _ || negb _); simpl; [unfold throw; discriminate|].
  unfold mbind at 1, ret at 1. unfold mbind at 1.
  destruct (create_access_token J cfg sub ml na st) as [[a|e] st1]; [|discriminate].
  unfold mbind at 1.
  destruct (create_refresh_token J cfg sub ml nr st1) as [[r|e] st2]; [|discriminate].
  unfold mbind, update, ret. intros [= _ <-].
  unfold delete. simpl. apply lookup_delete_eq.
Qed.

(** X10 — A refresh token rotates once. After a rotation that succeeded,
    any further rotation handing in the same refresh token for the same
    subject fails with [TokenError('Refresh Token has expired')] and
    leaves the store as it is, whatever access token, clock reading and
    multi-session flag it comes with. *)
Theorem refresh_token_rotates_once (sub token rt : string) (ml : bool) (na nr : Z)
  (st st' : store) (nt : NewToken)
  (token' : string) (ml' : bool) (na' nr' : Z) :
  create_new_token J cfg sub token rt ml na nr st = (Ok nt, st') ->
  create_new_token J cfg sub token' rt ml' na' nr' st'
  = (Raise (TokenError (Some "Refresh Token has expired")), st').
Proof.
  intros H. apply rotation_consumes_refresh_key in H.
  unfold create_new_token, mbind at 1, query, get. rewrite H. reflexivity.
Qed.

(** X11 — With multi-session enabled a rotation touches four keys only:
    the old access and refresh keys and the two new ones; every other
    entry of the store, the subject's other sessions included, stays as
    it was. *)
Theorem multi_login_rotation_touches_four_keys (sub token rt : string) (na nr : Z)
  (st : store) (k : string) :
  get (scoped_key (TOKEN_REFRESH_REDIS_PREFIX cfg) sub rt) st = Some rt ->
  rt <> "" ->
  0 < TOKEN_EXPIRE_SECONDS cfg ->
  0 < TOKEN_REFRESH_EXPIRE_SECONDS cfg ->
  k <> scoped_key (TOKEN_REDIS_PREFIX cfg) sub token ->
  k <> scoped_key (TOKEN_REFRESH_REDIS_PREFIX cfg) sub rt ->
  k <> scoped_key (TOKEN_REDIS_PREFIX cfg) sub (access_token_at J cfg sub na) ->
  k <> scoped_key (TOKEN_REFRESH_REDIS_PREFIX cfg) sub (refresh_token_at J cfg sub nr) ->
  snd (create_new_token J cfg sub token rt true na nr st) !! k = st !! k.
Proof.
  intros Hget Hrt Ha Hr K1 K2 K3 K4.
  rewrite TokenService.create_new_token_eq by assumption. cbn [snd].
  rewrite !lookup_delete_keys.
  rewrite !decide_False by (rewrite list_elem_of_singleton; assumption).
  unfold issued_store. now rewrite !lookup_insert_ne by congruence.
Qed.

(** X13 — With multi-session disabled a rotation that gets past the
    refresh check leaves the subject one session at most: under the
    subject's access scope no key but that of the new access token is
    left, and under its refresh scope none but that of the new refresh
    token (prefixes that do not start one another, scopes free of glob
    metacharacters). *)
Theorem single_session_rotation_clears_scopes (sub token rt : string) (na nr : Z)
  (st : store) (k : string) :
  get (scoped_key (TOKEN_REFRESH_REDIS_PREFIX cfg) sub rt) st = Some rt ->
  rt <> "" ->
  0 < TOKEN_EXPIRE_SECONDS cfg ->
  0 < TOKEN_REFRESH_EXPIRE_SECONDS cfg ->
  separated (TOKEN_REDIS_PREFIX cfg) (TOKEN_REFRESH_REDIS_PREFIX cfg) = true ->
  literal (scope_prefix (TOKEN_REDIS_PREFIX cfg) sub) = true ->
  literal (scope_prefix (TOKEN_REFRESH_REDIS_PREFIX cfg) sub) = true ->
  (String.prefix (scope_prefix (TOKEN_REDIS_PREFIX cfg) sub) k = true
   /\ k <> scoped_key (TOKEN_REDIS_PREFIX cfg) sub (access_token_at J cfg sub na))
  \/ (String.prefix (scope_prefix (TOKEN_REFRESH_REDIS_PREFIX cfg) sub) k = true
      /\ k <> scoped_key (TOKEN_REFRESH_REDIS_PREFIX cfg) sub
                (refresh_token_at J cfg sub nr)) ->
  snd (create_new_token J cfg sub token rt false na nr st) !! k = None.
Proof.
  intros Hget Hrt Ha Hr Hsep HlA HlR Hk.
  rewrite TokenService.create_new_token_eq by assumption. cbn [snd].
  rewrite lookup_delete_keys. case_decide; [reflexivity|].
  rewrite lookup_delete_keys. case_decide; [reflexivity|].
  destruct Hk as [[Hp Hne] | [Hp Hne]].
  - apply prefix_split in Hp as [r ->].
    rewrite lookup_issued_other; auto.
    + apply lookup_issued_scope; auto. apply prefix_app.
    + unfold scope_prefix. rewrite !app_assoc. apply separated_prefix.
      now rewrite TokenService.separated_sym.
  - now apply lookup_issued_scope.
Qed.

End Rotating.

Lemma refresh_token_rotates_once_witness :
  create_new_token Plain.jose Sample.cfg "7" "7.4601.k" "7.605800.k" false 1002 1002
    (snd (create_new_token Plain.jose Sample.cfg "7" "7.4600.k" "7.605800.k" false
            1001 1001 Sample.after_login))
  = (Raise (TokenError (Some "Refresh Token has expired")),
     snd (create_new_token Plain.jose Sample.cfg "7" "7.4600.k" "7.605800.k" false
            1001 1001 Sample.after_login)).
Proof.
  apply (refresh_token_rotates_once Plain.jose Sample.cfg "7" "7.4600.k" "7.605800.k"
           false 1001 1001 Sample.after_login _
           {| new_access_token := "7.4601.k"; new_access_token_expire_time := 4601;
              new_refresh_token := "7.605801.k";
              new_refresh_token_expire_time := 605801 |}).
  vm_compute. reflexivity.
Defined.

Lemma multi_login_rotation_touches_four_keys_witness :
  snd (create_new_token Plain.jose Sample.cfg "7" "7.4600.k" "7.605800.k" true
         1001 1001 (<["access:7:other" := Entry "other" 3600]> Sample.after_login))
  !! "access:7:other"
  = Some (Entry "other" 3600).
Proof.
  rewrite (multi_login_rotation_touches_four_keys Plain.jose Sample.cfg
             "7" "7.4600.k" "7.605800.k" 1001 1001
             (<["access:7:other" := Entry "other" 3600]> Sample.after_login)
             "access:7:other");
    vm_compute; congruence.
Defined.

Lemma single_session_rotation_clears_scopes_witness :
  snd (create_new_token Plain.jose Sample.cfg "7" "7.4600.k" "7.605800.k" false
         1001 1001 (<["access:7:other" := Entry "other" 3600]> Sample.after_login))
  !! "access:7:other"
  = None.
Proof.
  apply (single_session_rotation_clears_scopes Plain.jose Sample.cfg
           "7" "7.4600.k" "7.605800.k" 1001 1001
           (<["access:7:other" := Entry "other" 3600]> Sample.after_login)
           "access:7:other");
    try (vm_compute; congruence).
  left. split; vm_compute; congruence.
Defined.

End Rotation.

(** ** The bearer header *)

Module BearerFacts.
Import Bearer PyFacts.

Lemma lower_char_space (c : ascii) :
  Ascii.eqb (lower_char c) " " = Ascii.eqb c " ".
Proof.
  destruct c as [[|] [|] [|] [|] [|] [|] [|] [|]]; reflexivity.
Qed.

Lemma has_space_lower (s : string) : has_char " " (lower s) = has_char " " s.
Proof.
  induction s as [|c s IH]; [reflexivity|]. simpl. now rewrite lower_char_space, IH.
Qed.

Lemma bearer_has_no_space (scheme : string) :
  lower scheme = "bearer" -> has_char " " scheme = false.
Proof. intros H. rewrite <- has_space_lower, H. reflexivity. Qed.

Lemma partition_space_app (a b : string) :
  has_char " " a = false -> partition_space (a +:+ " " +:+ b) = (a, b).
Proof.
  induction a as [|c a IH]; intros H.
  - reflexivity.
  - simpl in H. apply orb_false_iff in H as [Hc Ha].
    rewrite app_cons. simpl. rewrite Hc, (IH Ha). reflexivity.
Qed.

Lemma partition_space_plain (a : string) :
  has_char " " a = false -> partition_space a = (a, "").
Proof.
  induction a as [|c a IH]; intros H; [reflexivity|].
  simpl in H. apply orb_false_iff in H as [Hc Ha].
  simpl. rewrite Hc, (IH Ha). reflexivity.
Qed.

Lemma partition_space_inv (v a b : string) :
  partition_space v = (a, b) ->
  has_char " " a = false /\ (v = a +:+ " " +:+ b \/ (v = a /\ b = "")).
Proof.
  revert a b. induction v as [|c v IH]; intros a b H; simpl in H.
  - injection H as <- <-. auto.
  - destruct (Ascii.eqb_spec c " ") as [->|Hc].
    + injection H as <- <-. auto.
    + destruct (partition_space v) as [a' b'] eqn:P. injection H as <- <-.
      destruct (IH a' b' eq_refl) as [Ha [-> | [-> ->]]]; simpl.
      * apply Ascii.eqb_neq in Hc. rewrite Hc, Ha. auto.
      * apply Ascii.eqb_neq in Hc. rewrite Hc, Ha. auto.
Qed.

(** X12 — [get_token] returns a token exactly when the request has a
    non-empty [Authorization] header whose text before the first space is
    [bearer] in any letter case; the token is the text after that space,
    as it stands, and the empty string when the header is the scheme
    alone. In every other case it raises [TokenError('Invalid token')]. *)
Theorem get_token_reads_the_bearer_header (hs : headers) :
  (forall token,
      get_token hs = Ok token <->
      exists v scheme,
        headers_get "Authorization" hs = Some v
        /\ lower scheme = "bearer"
        /\ (v = scheme +:+ " " +:+ token \/ (v = scheme /\ token = "")))
  /\ ((forall token, get_token hs <> Ok token) ->
      get_token hs = Raise (TokenError (Some "Invalid token"))).
Proof.
  unfold get_token, get_authorization_scheme_param, bind, raise_if.
  destruct (headers_get "Authorization" hs) as [v|]; simpl.
  2:{ split; [|reflexivity]. intros token. split; [discriminate|].
      intros (v & s & H & _). discriminate. }
  destruct (truthy_str v) eqn:T; simpl.
  2:{ split; [|reflexivity]. intros token. split; [discriminate|].
      intros (v' & s & [= <-] & Hs & Hv).
      unfold truthy_str in T. apply negb_false_iff, String.eqb_eq in T. subst v.
      destruct Hv as [Hv | [Hv _]]; destruct s; try discriminate. }
  destruct (partition_space v) as [scheme token0] eqn:P.
  destruct (String.eqb_spec (lower scheme) "bearer") as [Hb|Hb]; simpl.
  - split; [|intros H; exfalso; now apply (H token0)].
    intros token. split.
    + intros [= <-]. exists v, scheme. repeat split; auto.
      now destruct (partition_space_inv _ _ _ P) as [_ ?].
    + intros (v' & s & [= <-] & Hs & Hv).
      pose proof (bearer_has_no_space s Hs) as Hns.
      destruct Hv as [-> | [-> ->]].
      * rewrite partition_space_app in P by exact Hns. congruence.
      * rewrite partition_space_plain in P by exact Hns. congruence.
  - split; [|reflexivity]. intros token. split; [discriminate|].
    intros (v' & s & [= <-] & Hs & Hv).
    pose proof (bearer_has_no_space s Hs) as Hns.
    destruct Hv as [-> | [-> ->]].
    + rewrite partition_space_app in P by exact Hns. congruence.
    + rewrite partition_space_plain in P by exact Hns. congruence.
Qed.

Lemma get_token_reads_the_bearer_header_witness :
  get_token [("host", "example.org"); ("authorization", "BEARER 7.4600.k")]
  = Ok "7.4600.k"
  /\ get_token [("authorization", "Basic dXNlcjpwYXNz")]
     = Raise (TokenError (Some "Invalid token")).
Proof.
  split.
  - apply (proj1 (get_token_reads_the_bearer_header _)).
    exists "BEARER 7.4600.k", "BEARER". repeat split. left. reflexivity.
  - apply (proj2 (get_token_reads_the_bearer_header _)).
    intros token. vm_compute. discriminate.
Defined.

End BearerFacts.

(** ** Start-up checks on the routes *)

Module RouteFacts.
Import Routes.

Lemma api_names_api (name : string) (oid : option string) (rest : list route) :
  api_names (APIRoute name oid :: rest) = name :: api_names rest.
Proof. reflexivity. Qed.

Lemma api_names_other (name : string) (rest : list route) :
  api_names (OtherRoute name :: rest) = api_names rest.
Proof. reflexivity. Qed.

Lemma unique_from_ok (routes : list route) :
  forall seen : gset string,
    unique_from seen routes = inr tt <->
    NoDup (api_names routes) /\ forall n, n ∈ api_names routes -> n ∉ seen.
Proof.
  induction routes as [|[name oid|name] rest IH]; intros seen.
  - simpl. split; [intros _; split; [constructor | intros n Hn; inversion Hn] | auto].
  - cbn [unique_from]. rewrite api_names_api.
    case_bool_decide as Hin.
    + split; [discriminate|]. intros [_ H]. exfalso. apply (H name); [left | exact Hin].
    + rewrite IH, NoDup_cons. split.
      * intros [Hnd Hs]. repeat split; auto.
        -- intros Hn. apply (Hs name Hn), elem_of_union. left.
           now apply elem_of_singleton.
        -- intros n Hn. apply elem_of_cons in Hn as [-> | Hn]; [exact Hin|].
           intros Hseen. apply (Hs n Hn), elem_of_union. now right.
      * intros [[Hn Hnd] Hs]. split; [exact Hnd|].
        intros n Hin' Hu. apply elem_of_union in Hu as [Hu | Hu].
        -- apply elem_of_singleton in Hu as ->. contradiction.
        -- apply (Hs n); [now right | exact Hu].
  - cbn [unique_from]. rewrite api_names_other. apply IH.
Qed.

Lemma ensure_unique_route_names_ok_names (routes : list route) :
  ensure_unique_route_names routes = inr tt -> NoDup (api_names routes).
Proof. unfold ensure_unique_route_names. rewrite unique_from_ok. tauto. Qed.

Lemma unique_from_error (routes : list route) :
  forall (seen : gset string) (msg : string),
    unique_from seen routes = inl (ValueErrorOf msg) ->
    exists before name after,
      api_names routes = (before ++ name :: after)%list
      /\ NoDup before
      /\ (forall x, x ∈ before -> x ∉ seen)
      /\ (name ∈ before \/ name ∈ seen)
      /\ msg = "Non-unique route name: " +:+ name.
Proof.
  induction routes as [|[name oid|name] rest IH]; intros seen msg H.
  - discriminate.
  - cbn [unique_from] in H. rewrite api_names_api.
    case_bool_decide as Hin.
    + injection H as <-. exists [], name, (api_names rest).
      repeat split; auto using NoDup_nil_2. intros x Hx. inversion Hx.
    + apply IH in H as (before & n & after & E & Hnd & Hfresh & Hn & Hm).
      exists (name :: before), n, after. rewrite E. repeat split; auto.
      * apply NoDup_cons. split; [|exact Hnd].
        intros Hb. apply (Hfresh name Hb), elem_of_union. left.
        now apply elem_of_singleton.
      * intros x Hx. apply elem_of_cons in Hx as [-> | Hx]; [exact Hin|].
        intros Hs. apply (Hfresh x Hx), elem_of_union. now right.
      * destruct Hn as [Hn | Hn]; [left; now right|].
        apply elem_of_union in Hn as [Hn | Hn]; [|now right].
        apply elem_of_singleton in Hn as ->. left. now left.
  - cbn [unique_from] in H. rewrite api_names_other. now apply IH.
Qed.

Lemma api_names_simplified (routes : list route) :
  api_names (simplify_operation_ids routes) = api_names routes.
Proof.
  induction routes as [|[name oid|name] rest IH]; [reflexivity| |];
    change (simplify_operation_ids (?r :: rest))
      with (simplify_operation_ids [r] ++ simplify_operation_ids rest)%list;
    simpl; rewrite ?api_names_api, ?api_names_other; [f_equal|]; exact IH.
Qed.

Lemma api_operation_ids_simplified (routes : list route) :
  api_operation_ids (simplify_operation_ids routes) = map Some (api_names routes).
Proof.
  induction routes as [|[name oid|name] rest IH]; [reflexivity| |].
  - rewrite api_names_api.
    change (api_operation_ids (simplify_operation_ids (APIRoute name oid :: rest)))
      with (Some name :: api_operation_ids (simplify_operation_ids rest)).
    rewrite IH. reflexivity.
  - rewrite api_names_other. exact IH.
Qed.

(** X15 — [ensure_unique_route_names] returns exactly when no two
    [APIRoute]s share a name; routes of other classes are not looked at.
    When it raises, the [ValueError] names the first route name that
    repeats an earlier one: the names before it are pairwise distinct and
    contain it. *)
Theorem ensure_unique_route_names_iff (routes : list route) :
  (ensure_unique_route_names routes = inr tt <-> NoDup (api_names routes))
  /\ (forall msg,
        ensure_unique_route_names routes = inl (ValueErrorOf msg) ->
        exists before name after,
          api_names routes = (before ++ name :: after)%list
          /\ NoDup before /\ name ∈ before
          /\ msg = "Non-unique route name: " +:+ name).
Proof.
  unfold ensure_unique_route_names. split.
  - rewrite unique_from_ok. split; [tauto|]. intros H. split; [exact H|]. set_solver.
  - intros msg H. apply unique_from_error in H as (b & n & a & E & Hnd & _ & Hn & Hm).
    exists b, n, a. repeat split; auto. destruct Hn as [Hn | Hn]; [exact Hn | set_solver].
Qed.

(** X16 — When [register_router] gets through its two closing calls,
    every [APIRoute] has its own name as operation id, these operation
    ids are pairwise distinct, and names, order and the routes of other
    classes are as before; with a repeated name it raises before any
    operation id is set. *)
Theorem register_router_operation_ids (routes routes' : list route) :
  register_router routes = inr routes' ->
  length routes' = length routes
  /\ api_names routes' = api_names routes
  /\ api_operation_ids routes' = map Some (api_names routes)
  /\ NoDup (api_operation_ids routes')
  /\ (forall i name, routes !! i = Some (OtherRoute name) ->
                     routes' !! i = Some (OtherRoute name)).
Proof.
  unfold register_router.
  destruct (ensure_unique_route_names routes) as [e|[]] eqn:U; [discriminate|].
  intros [= <-]. apply ensure_unique_route_names_ok_names in U.
  repeat split.
  - unfold simplify_operation_ids. apply length_map.
  - apply api_names_simplified.
  - apply api_operation_ids_simplified.
  - rewrite api_operation_ids_simplified. apply NoDup_fmap_2; [|exact U].
    intros x y [= ->]. reflexivity.
  - intros i name Hi. unfold simplify_operation_ids.
    rewrite list_lookup_fmap, Hi. reflexivity.
Qed.

Lemma register_router_operation_ids_witness :
  api_operation_ids
    (simplify_operation_ids
       [APIRoute "get_users" None; OtherRoute "static"; APIRoute "login" (Some "x")])
  = [Some "get_users"; Some "login"]
  /\ NoDup (api_operation_ids
              (simplify_operation_ids
                 [APIRoute "get_users" None; OtherRoute "static";
                  APIRoute "login" (Some "x")])).
Proof.
  destruct (register_router_operation_ids
              [APIRoute "get_users" None; OtherRoute "static"; APIRoute "login" (Some "x")]
              _ eq_refl) as (_ & _ & H1 & H2 & _).
  split; [exact H1 | exact H2].
Defined.

End RouteFacts.

(** ** More on the permission gate *)

(** The request with another attached permission code, the user with
    other roles, a role with another status. *)
Definition with_permission (q : Request) (perm : option string) : Request :=
  {| path := path q; method := method q; auth_scopes := auth_scopes q;
     user := user q; state_permission := perm |}.

Definition with_roles (u : User) (rs : list Role) : User :=
  {| uuid := uuid u; status := status u; is_superuser := is_superuser u;
     is_staff := is_staff u; dept_id := dept_id u; dept := dept u; roles := rs |}.

Definition with_role_status (st : Z) (r : Role) : Role :=
  {| role_status := st; data_scope := data_scope r; menus := menus r |}.

Module GateFacts.
Import Rbac Permission PyFacts.

Lemma allow_perms_app (a b : list Role) :
  allow_perms (a ++ b) = (allow_perms a ++ allow_perms b)%list.
Proof. unfold allow_perms. apply flat_map_app. Qed.

Lemma str_in_app (x : string) (a b : list string) :
  str_in x (a ++ b) = str_in x a || str_in x b.
Proof. unfold str_in. apply existsb_app. Qed.

Lemma allow_perms_status (f : Role -> Z) (rs : list Role) :
  allow_perms (map (fun r => with_role_status (f r) r) rs) = allow_perms rs.
Proof.
  unfold allow_perms. induction rs as [|r rs IH]; [reflexivity|].
  simpl. now rewrite IH.
Qed.

Lemma pair_in_iff (x : string * string) (l : list (string * string)) :
  pair_in x l = true <-> x ∈ l.
Proof.
  unfold pair_in. rewrite existsb_exists, list_elem_of_In. split.
  - intros ([a b] & Hin & E). apply andb_true_iff in E as [E1 E2].
    apply String.eqb_eq in E1, E2. destruct x as [c d]. simpl in *. now subst.
  - intros H. exists x. split; [exact H|]. now rewrite !String.eqb_refl.
Qed.

Lemma existsb_status (p : Role -> bool) (f : Role -> Z) (rs : list Role) :
  (forall r, p (with_role_status (f r) r) = p r) ->
  existsb p (map (fun r => with_role_status (f r) r) rs) = existsb p rs.
Proof.
  intros Hp. induction rs as [|r rs IH]; [reflexivity|].
  simpl. now rewrite Hp, IH.
Qed.

Section Gate.
Context (enforce : string -> string -> string -> bool) (cfg : Settings).

(** In role-menu mode [RequestPermission] attaches its value to the
    request state and changes nothing else, the later of two annotations
    replacing the earlier, and it raises [ServerError] for a value that
    is not a [str]; in any other mode it leaves the request as it is and
    accepts every value. *)
Theorem request_permission_attaches_in_role_menu_mode (q : Request) :
  (PERMISSION_MODE cfg = "role-menu" ->
   (forall v, call cfg (PStr v) q = inr (with_permission q (Some v)))
   /\ call cfg PNotStr q = inl ServerError
   /\ (forall v1 v2 q1,
         call cfg (PStr v1) q = inr q1 -> call cfg (PStr v2) q1 = call cfg (PStr v2) q))
  /\ (PERMISSION_MODE cfg <> "role-menu" -> forall value, call cfg value q = inr q).
Proof.
  unfold call. split.
  - intros ->. cbn. repeat split. intros v1 v2 q1 [= <-]. reflexivity.
  - intros H value. apply String.eqb_neq in H. now rewrite H.
Qed.

(** X14 — For the gate, a route annotated with the empty string or with
    a code of the exclusion set is a route without annotation: in
    role-menu mode the decision after such a [RequestPermission] is the
    decision for the request with no code attached. *)
Theorem open_annotation_is_no_annotation (q q' : Request) (v : string) :
  PERMISSION_MODE cfg = "role-menu" ->
  v = "" \/ v ∈ RBAC_ROLE_MENU_EXCLUDE cfg ->
  call cfg (PStr v) q = inr q' ->
  rbac_verify enforce cfg q' = rbac_verify enforce cfg (with_permission q None).
Proof.
  intros Hmode Hv. unfold call. rewrite Hmode. cbn. intros [= <-].
  unfold rbac_verify. cbn [path auth_scopes user method state_permission with_permission].
  rewrite Hmode. cbn [String.eqb Ascii.eqb Bool.eqb truthy_opt negb].
  assert ((if negb (truthy_str v) then Ok tt
           else if str_in v (RBAC_ROLE_MENU_EXCLUDE cfg) then Ok tt
                else raise_if (negb (str_in v (allow_perms (roles (user q)))))
                       (AuthorizationError None)) = Ok tt) as ->; [|reflexivity].
  destruct Hv as [-> | Hv]; [reflexivity|].
  apply str_in_iff in Hv. rewrite Hv. now destruct (negb (truthy_str v)).
Qed.

(** X18 — The gate never reads the status of a role: the decision for a
    user is the same whatever the statuses of the roles are, so the menus
    of a disabled role grant their codes like those of an enabled one. *)
Theorem gate_ignores_role_status (q : Request) (f : Role -> Z) :
  rbac_verify enforce cfg
    (with_user q (with_roles (user q)
                    (map (fun r => with_role_status (f r) r) (roles (user q)))))
  = rbac_verify enforce cfg q.
Proof.
  unfold rbac_verify.
  cbn [path auth_scopes user method state_permission with_user with_roles
         roles is_superuser is_staff uuid].
  rewrite allow_perms_status, !existsb_status by reflexivity.
  destruct (roles (user q)); reflexivity.
Qed.

(** X19 — One more role never takes access away: a request that the gate
    allows is allowed when roles are added to the user. *)
Theorem more_roles_never_revoke (q : Request) (more : list Role) :
  rbac_verify enforce cfg q = Ok tt ->
  rbac_verify enforce cfg (with_user q (with_roles (user q) (roles (user q) ++ more)))
  = Ok tt.
Proof.
  unfold rbac_verify.
  cbn [path auth_scopes user method state_permission with_user with_roles
         roles is_superuser is_staff uuid].
  destruct (str_in (path q) _); [reflexivity|].
  destruct (auth_scopes q); [discriminate|]. cbn [truthy_list negb raise_if bind].
  destruct (is_superuser (user q)); [reflexivity|].
  destruct (roles (user q)) as [|r rs]; [discriminate|].
  change ((r :: rs) ++ more)%list with (r :: (rs ++ more))%list.
  cbn [truthy_list negb raise_if bind].
  rewrite app_comm_cons, !existsb_app, allow_perms_app.
  destruct (existsb (fun role => (0 <? length (menus role))%nat) (r :: rs));
    [|discriminate].
  cbn [orb negb raise_if bind].
  destruct (negb (String.eqb (method q) MethodType.GET) || _).
  2:{ destruct (existsb (fun role => data_scope role =? 1) (r :: rs));
        [reflexivity|].
      cbn [orb]. destruct (existsb _ more); [reflexivity|].
      destruct (String.eqb (PERMISSION_MODE cfg) "role-menu"); [|auto].
      destruct (negb (truthy_opt truthy_str (state_permission q))); [reflexivity|].
      destruct (truthy_opt _ (state_permission q)); [reflexivity|].
      destruct (state_permission q) as [p|]; cbn [truthy_opt]; [|auto].
      rewrite str_in_app. destruct (str_in p (allow_perms (r :: rs))); [reflexivity|].
      discriminate. }
  destruct (is_staff (user q)); [|discriminate]. cbn [negb raise_if bind].
  destruct (existsb (fun role => data_scope role =? 1) (r :: rs)); [reflexivity|].
  cbn [orb]. destruct (existsb _ more); [reflexivity|].
  destruct (String.eqb (PERMISSION_MODE cfg) "role-menu"); [|auto].
  destruct (negb (truthy_opt truthy_str (state_permission q))); [reflexivity|].
  destruct (truthy_opt _ (state_permission q)); [reflexivity|].
  destruct (state_permission q) as [p|]; cbn [truthy_opt]; [|auto].
  rewrite str_in_app. destruct (str_in p (allow_perms (r :: rs))); [reflexivity|].
  discriminate.
Qed.

(** X26 — [superuser_verify] is the stricter check: a request with an
    auth scope that passes it is allowed by the gate, in either mode. *)
Theorem superuser_verify_implies_gate (q : Request) (b : bool) :
  auth_scopes q <> [] ->
  Jwt.superuser_verify q = Ok b ->
  rbac_verify enforce cfg q = Ok tt.
Proof.
  intros Hs. unfold Jwt.superuser_verify, bind, raise_if.
  destruct (is_superuser (user q)) eqn:Hsu; [|discriminate]. intros _.
  unfold rbac_verify.
  destruct (str_in (path q) _); [reflexivity|].
  destruct (auth_scopes q); [congruence|]. simpl. now rewrite Hsu.
Qed.

(** X20 — The two permission modes do not mix: in role-menu mode the
    policy engine is never asked, and in the other mode the attached
    permission code is never read. *)
Theorem permission_modes_do_not_mix (q : Request) :
  (PERMISSION_MODE cfg = "role-menu" ->
   forall enforce', rbac_verify enforce' cfg q = rbac_verify enforce cfg q)
  /\ (PERMISSION_MODE cfg <> "role-menu" ->
      forall perm, rbac_verify enforce cfg (with_permission q perm)
                   = rbac_verify enforce cfg q).
Proof.
  unfold rbac_verify. split.
  - intros -> enforce'. reflexivity.
  - intros H perm. apply String.eqb_neq in H.
    cbn [path auth_scopes user method state_permission with_permission].
    now rewrite H.
Qed.

(** X21 — The gate raises [TokenError] exactly for a request outside the
    whitelist without auth scope; every other refusal is an
    [AuthorizationError], and a whitelisted path is let through without
    any check. *)
Theorem gate_error_kinds (q : Request) :
  (rbac_verify enforce cfg q = Raise (TokenError None)
   <-> (path q ∉ TOKEN_REQUEST_PATH_EXCLUDE cfg) /\ auth_scopes q = [])
  /\ (forall e, rbac_verify enforce cfg q = Raise e ->
                e = TokenError None \/ exists msg, e = AuthorizationError msg)
  /\ (path q ∈ TOKEN_REQUEST_PATH_EXCLUDE cfg -> rbac_verify enforce cfg q = Ok tt).
Proof.
  unfold rbac_verify. rewrite <- str_in_iff.
  destruct (str_in (path q) (TOKEN_REQUEST_PATH_EXCLUDE cfg)).
  { split; [|split; [discriminate | reflexivity]].
    split; [discriminate|]. intros [Hw _]. now destruct Hw. }
  destruct (auth_scopes q) as [|sc scs]; cbn [truthy_list negb raise_if bind].
  { split; [|split; [|discriminate]].
    - split; [intros _; split; [discriminate | reflexivity] | reflexivity].
    - intros e He. left. congruence. }
  match goal with
  | |- (?r = _ <-> _) /\ _ =>
      assert (forall e, r = Raise e -> exists msg, e = AuthorizationError msg) as Hr
  end.
  { intros e.
    destruct (is_superuser (user q)); [discriminate|].
    destruct (roles (user q)) as [|r rs]; cbn [truthy_list negb raise_if bind].
    { intros He. injection He as <-. eauto. }
    destruct (existsb (fun role => (0 <? length (menus role))%nat) (r :: rs));
      cbn [negb raise_if bind]; [|intros He; injection He as <-; eauto].
    assert (forall r' : result unit,
               (forall e', r' = Raise e' -> exists msg, e' = AuthorizationError msg) ->
               bind (if negb (String.eqb (method q) MethodType.GET)
                        || negb (String.eqb (method q) MethodType.OPTIONS)
                     then raise_if (negb (is_staff (user q)))
                            (AuthorizationError
                               (Some "This user is prohibited from backend management operations"))
                     else Ok tt) (fun _ => r') = Raise e ->
               exists msg, e = AuthorizationError msg) as Hstaff.
    { intros r' Hr'. destruct (negb _ || negb _); [|apply Hr'].
      destruct (is_staff (user q)); cbn [negb raise_if bind]; [apply Hr'|].
      intros He. injection He as <-. eauto. }
    apply Hstaff. clear Hstaff. intros e'.
    destruct (existsb (fun role => data_scope role =? 1) (r :: rs)); [discriminate|].
    destruct (String.eqb (PERMISSION_MODE cfg) "role-menu").
    - destruct (negb (truthy_opt truthy_str _)); [discriminate|].
      destruct (truthy_opt _ (state_permission q)); [discriminate|].
      destruct (negb (truthy_opt _ (state_permission q))); simpl; [|discriminate].
      intros He. injection He as <-. eauto.
    - destruct (pair_in _ _); [discriminate|].
      destruct (negb (enforce _ _ _)); simpl; [|discriminate].
      intros He. injection He as <-. eauto. }
  split; [|split; [|discriminate]].
  - split; [|intros [_ Hn]; discriminate].
    intros He. apply Hr in He as [msg He]. discriminate.
  - intros e He. right. now apply Hr.
Qed.

(** X22 — In the policy-engine mode, for a request outside the whitelist
    with an auth scope, from a staff user who is not superuser, has roles
    and menus and no role of open data scope: the decision is allow
    exactly when the pair of method and path is in the exclusion list or
    the engine accepts user uuid, path and method; a denial is the bare
    [AuthorizationError]. *)
Theorem policy_engine_decision (q : Request) :
  PERMISSION_MODE cfg <> "role-menu" ->
  (path q ∉ TOKEN_REQUEST_PATH_EXCLUDE cfg) ->
  auth_scopes q <> [] ->
  is_superuser (user q) = false ->
  is_staff (user q) = true ->
  (exists r, r ∈ roles (user q) /\ menus r <> []) ->
  (forall r, r ∈ roles (user q) -> data_scope r <> 1) ->
  (rbac_verify enforce cfg q = Ok tt
   <-> (method q, path q) ∈ RBAC_CASBIN_EXCLUDE cfg
       \/ enforce (uuid (user q)) (path q) (method q) = true)
  /\ (rbac_verify enforce cfg q <> Ok tt ->
      rbac_verify enforce cfg q = Raise (AuthorizationError None)).
Proof.
  intros Hmode Hp Hs Hsu Hst Hm Hd.
  assert (roles (user q) <> []) as Hr.
  { destruct Hm as (r & Hin & _). intros E. rewrite E in Hin. inversion Hin. }
  unfold rbac_verify.
  rewrite <- str_in_iff in Hp. apply not_true_is_false in Hp. rewrite Hp.
  destruct (auth_scopes q) as [|sc scs]; [congruence|]. simpl. rewrite Hsu.
  destruct (roles (user q)) as [|r rs] eqn:R; [congruence|].
  cbn [truthy_list negb raise_if bind].
  apply PermissionGate.some_role_has_menus in Hm. rewrite Hm.
  cbn [negb raise_if bind].
  rewrite PermissionGate.method_test_always_true, Hst. cbn [negb raise_if bind].
  apply PermissionGate.no_open_data_scope in Hd. rewrite Hd.
  apply String.eqb_neq in Hmode. rewrite Hmode.
  rewrite <- pair_in_iff.
  destruct (pair_in _ _).
  - split; [split; auto | intros H; now destruct H].
  - destruct (enforce _ _ _); simpl.
    + split; [split; auto | intros H; now destruct H].
    + split; [split; [discriminate | intros [H | H]; discriminate] | reflexivity].
Qed.

(** X23 — A role of open data scope opens every route to a staff user:
    with an auth scope present, a staff user with roles and menus one of
    whose roles has data scope 1 is allowed in either mode, whatever code
    is attached and whatever the policy engine says. *)
Theorem open_data_scope_allows_staff (q : Request) :
  auth_scopes q <> [] ->
  is_staff (user q) = true ->
  (exists r, r ∈ roles (user q) /\ menus r <> []) ->
  (exists r, r ∈ roles (user q) /\ data_scope r = 1) ->
  rbac_verify enforce cfg q = Ok tt.
Proof.
  intros Hs Hst Hm (r0 & Hin & Hd). unfold rbac_verify.
  destruct (str_in (path q) _); [reflexivity|].
  destruct (auth_scopes q) as [|sc scs]; [congruence|]. simpl.
  destruct (is_superuser (user q)); [reflexivity|].
  destruct (roles (user q)) as [|r rs] eqn:R; [inversion Hin|].
  cbn [truthy_list negb raise_if bind].
  apply PermissionGate.some_role_has_menus in Hm. rewrite Hm.
  cbn [negb raise_if bind].
  rewrite PermissionGate.method_test_always_true, Hst. cbn [negb raise_if bind].
  assert (existsb (fun role => data_scope role =? 1) (r :: rs) = true) as ->;
    [|reflexivity].
  apply existsb_exists. exists r0. split; [now apply list_elem_of_In|].
  now apply Z.eqb_eq.
Qed.

(** X24 — The role and menu denials come before staff, data scope and
    permission code: outside the whitelist, with an auth scope, a user
    who is not superuser is refused with the no-role message when it has
    no roles and with the no-menu message when none of its roles has a
    menu, also when it is staff and one of the roles has open data
    scope. *)
Theorem role_and_menu_denials_come_first (q : Request) :
  (path q ∉ TOKEN_REQUEST_PATH_EXCLUDE cfg) ->
  auth_scopes q <> [] ->
  is_superuser (user q) = false ->
  (roles (user q) = [] ->
   rbac_verify enforce cfg q
   = Raise (AuthorizationError
              (Some "User has not been assigned a role, authorization failed")))
  /\ (roles (user q) <> [] ->
      (forall r, r ∈ roles (user q) -> menus r = []) ->
      rbac_verify enforce cfg q
      = Raise (AuthorizationError
                 (Some "User's roles have not been assigned menus, authorization failed"))).
Proof.
  intros Hp Hs Hsu. unfold rbac_verify.
  rewrite <- str_in_iff in Hp. apply not_true_is_false in Hp. rewrite Hp.
  destruct (auth_scopes q) as [|sc scs]; [congruence|]. simpl. rewrite Hsu.
  split.
  - intros ->. reflexivity.
  - intros Hr Hm. destruct (roles (user q)) as [|r rs] eqn:R; [congruence|].
    cbn [truthy_list negb raise_if bind].
    assert (existsb (fun role => (0 <? length (menus role))%nat) (r :: rs) = false) as ->;
      [|reflexivity].
    apply not_true_is_false. intros E.
    apply PermissionGate.some_role_has_menus in E as (r' & Hin & Hne).
    apply Hne, Hm, Hin.
Qed.

End Gate.

Lemma open_annotation_is_no_annotation_witness :
  rbac_verify Sample.no_policy Sample.cfg
    (with_permission (Sample.request_of "POST" Sample.officer None)
       (Some "sys:monitor:redis"))
  = rbac_verify Sample.no_policy Sample.cfg
      (with_permission (Sample.request_of "POST" Sample.officer None) None).
Proof.
  apply (open_annotation_is_no_annotation Sample.no_policy Sample.cfg
           (Sample.request_of "POST" Sample.officer None) _ "sys:monitor:redis").
  - reflexivity.
  - right. apply list_elem_of_singleton. reflexivity.
  - reflexivity.
Defined.

Lemma more_roles_never_revoke_witness :
  rbac_verify Sample.no_policy Sample.cfg
    (with_user (Sample.request_of "POST" Sample.officer (Some "sys:user:list"))
       (with_roles Sample.officer
          (roles Sample.officer
             ++ [ {| role_status := 0; data_scope := 2; menus := [] |} ])))
  = Ok tt.
Proof.
  apply (more_roles_never_revoke Sample.no_policy Sample.cfg
           (Sample.request_of "POST" Sample.officer (Some "sys:user:list"))).
  reflexivity.
Defined.

(** A policy engine that accepts every [GET]. *)
Definition get_policy (sub obj act : string) : bool := String.eqb act "GET".

Definition engine_cfg : Settings := {|
  TOKEN_SECRET_KEY := "k";
  TOKEN_ALGORITHM := "HS256";
  TOKEN_EXPIRE_SECONDS := 3600;
  TOKEN_REFRESH_EXPIRE_SECONDS := 604800;
  TOKEN_REDIS_PREFIX := "access";
  TOKEN_REFRESH_REDIS_PREFIX := "refresh";
  TOKEN_REQUEST_PATH_EXCLUDE := ["/api/v1/auth/login"];
  PERMISSION_MODE := "casbin";
  RBAC_ROLE_MENU_EXCLUDE := [];
  RBAC_CASBIN_EXCLUDE := [("POST", "/api/v1/auth/logout")]
|}.

Lemma sample_role_has_menus (u : User) :
  roles u = [Sample.clerk_role] -> exists r, r ∈ roles u /\ menus r <> [].
Proof.
  intros ->. exists Sample.clerk_role.
  split; [apply list_elem_of_singleton; reflexivity | discriminate].
Qed.

Lemma policy_engine_decision_witness :
  rbac_verify get_policy engine_cfg (Sample.request_of "GET" Sample.officer None) = Ok tt
  /\ rbac_verify get_policy engine_cfg (Sample.request_of "POST" Sample.officer None)
     = Raise (AuthorizationError None).
Proof.
  split.
  - apply (proj1 (policy_engine_decision get_policy engine_cfg
                    (Sample.request_of "GET" Sample.officer None)
                    ltac:(discriminate)
                    ltac:(intros H; apply list_elem_of_singleton in H; discriminate)
                    ltac:(discriminate) eq_refl eq_refl
                    (sample_role_has_menus Sample.officer eq_refl)
                    ltac:(intros r H; apply list_elem_of_singleton in H as ->;
                          discriminate))).
    right. reflexivity.
  - apply (proj2 (policy_engine_decision get_policy engine_cfg
                    (Sample.request_of "POST" Sample.officer None)
                    ltac:(discriminate)
                    ltac:(intros H; apply list_elem_of_singleton in H; discriminate)
                    ltac:(discriminate) eq_refl eq_refl
                    (sample_role_has_menus Sample.officer eq_refl)
                    ltac:(intros r H; apply list_elem_of_singleton in H as ->;
                          discriminate))).
    discriminate.
Defined.

Lemma open_data_scope_allows_staff_witness :
  rbac_verify Sample.no_policy Sample.cfg
    (with_user (Sample.request_of "DELETE" Sample.officer (Some "sys:user:del"))
       (with_roles Sample.officer
          [ {| role_status := 1; data_scope := 1; menus := [Sample.user_menu] |} ]))
  = Ok tt.
Proof.
  apply (open_data_scope_allows_staff Sample.no_policy Sample.cfg).
  - discriminate.
  - reflexivity.
  - eexists. split; [apply list_elem_of_singleton; reflexivity | discriminate].
  - eexists. split; [apply list_elem_of_singleton; reflexivity | reflexivity].
Defined.

Lemma role_and_menu_denials_come_first_witness :
  rbac_verify Sample.no_policy Sample.cfg
    (with_user (Sample.request_of "GET" Sample.officer None)
       (with_roles Sample.officer
          [ {| role_status := 1; data_scope := 1; menus := [] |} ]))
  = Raise (AuthorizationError
             (Some "User's roles have not been assigned menus, authorization failed")).
Proof.
  apply (proj2 (role_and_menu_denials_come_first Sample.no_policy Sample.cfg
                  (with_user (Sample.request_of "GET" Sample.officer None)
                     (with_roles Sample.officer
                        [ {| role_status := 1; data_scope := 1; menus := [] |} ]))
                  ltac:(intros H; apply list_elem_of_singleton in H; discriminate)
                  ltac:(discriminate) eq_refl)).
  - discriminate.
  - intros r H. apply list_elem_of_singleton in H as ->. reflexivity.
Defined.

Lemma superuser_verify_implies_gate_witness :
  rbac_verify Sample.no_policy Sample.cfg
    {| path := "/api/v1/users"; method := "DELETE"; auth_scopes := ["authenticated"];
       user := {| uuid := "u-1"; status := 1; is_superuser := true; is_staff := true;
                  dept_id := None; dept := None; roles := [] |};
       state_permission := None |}
  = Ok tt.
Proof.
  apply (superuser_verify_implies_gate Sample.no_policy Sample.cfg _ true);
    [discriminate | reflexivity].
Defined.

End GateFacts.

(** ** Durations *)

Module DurationFacts.
Import ServerInfo PyFacts.

Lemma no_blank_uint (d : Decimal.uint) :
  has_char " " (NilEmpty.string_of_uint d) = false.
Proof. induction d; simpl; auto. Qed.

Lemma no_blank_str_of_int (n : Z) : has_char " " (str_of_int n) = false.
Proof.
  unfold str_of_int, NilZero.string_of_int, NilZero.string_of_uint.
  destruct (Z.to_int n) as [d|d]; destruct d; simpl; auto using no_blank_uint.
Qed.

(** The text before the first blank is determined by the string. *)
Lemma before_blank_inj (a b x y : string) :
  has_char " " a = false -> has_char " " b = false ->
  a +:+ " " +:+ x = b +:+ " " +:+ y -> a = b.
Proof.
  revert b. induction a as [|c a IH]; intros [|d b] Ha Hb H.
  - reflexivity.
  - rewrite app_empty_l, !app_cons in H. injection H as <- _.
    simpl in Hb. discriminate.
  - rewrite app_empty_l, !app_cons in H. injection H as -> _.
    simpl in Ha. discriminate.
  - rewrite !app_cons in H. injection H as -> H. f_equal.
    simpl in Ha, Hb. apply orb_false_iff in Ha as [_ Ha]. apply orb_false_iff in Hb as [_ Hb].
    now apply IH.
Qed.

Lemma join_space_cons (p : string) (rest : list string) :
  join_space (p :: rest)
  = p +:+ match rest with [] => "" | _ :: _ => " " +:+ join_space rest end.
Proof. destruct rest; [now rewrite app_empty_r | reflexivity]. Qed.

Lemma part_nonzero (n : Z) (u : string) :
  n <> 0 -> part n u = [str_of_int n +:+ " " +:+ u].
Proof.
  intros H. unfold part, truthy_int. now destruct (Z.eqb_spec n 0).
Qed.

Lemma part_zero (u : string) : part 0 u = [].
Proof. reflexivity. Qed.

(** A rendering whose first part counts something is not the rendering
    of zero. *)
Lemma counted_head_not_zero (n : Z) (u : string) (rest : list string) :
  n <> 0 ->
  join_space (part n u ++ rest)%list <> "0 seconds"
  /\ (part n u ++ rest)%list <> [].
Proof.
  intros Hn. rewrite part_nonzero by exact Hn. split; [|discriminate].
  change ([?p] ++ rest)%list with (p :: rest). rewrite join_space_cons.
  rewrite !app_assoc. intros E.
  change "0 seconds" with (str_of_int 0 +:+ " " +:+ "seconds") in E.
  apply before_blank_inj in E; auto using no_blank_str_of_int.
  apply str_of_int_inj in E. contradiction.
Qed.

(** X17 — [fmt_seconds] splits a number of seconds into days, hours,
    minutes and seconds and lists the components that are not zero, in
    this order: for [h < 24], [m < 60], [s < 60] the text for
    [d*86400 + h*3600 + m*60 + s] is made of the parts for [d], [h], [m]
    and [s]. It answers ['0 seconds'] for zero and for nothing else. *)
Theorem fmt_seconds_units (d h m s : Z) :
  0 <= h < 24 -> 0 <= m < 60 -> 0 <= s < 60 ->
  fmt_seconds (d * 86400 + h * 3600 + m * 60 + s)
  = (match (part d "days" ++ part h "hours" ++ part m "minutes"
              ++ part s "seconds")%list with
     | [] => "0 seconds"
     | parts => join_space parts
     end)
  /\ (fmt_seconds (d * 86400 + h * 3600 + m * 60 + s) = "0 seconds"
      <-> d * 86400 + h * 3600 + m * 60 + s = 0).
Proof.
  intros Hh Hm Hs.
  assert (fmt_seconds (d * 86400 + h * 3600 + m * 60 + s)
          = (match (part d "days" ++ part h "hours" ++ part m "minutes"
                      ++ part s "seconds")%list with
             | [] => "0 seconds"
             | parts => join_space parts
             end)) as Heq.
  { unfold fmt_seconds.
    assert ((d * 86400 + h * 3600 + m * 60 + s) / 86400 = d) as ->
      by (symmetry; apply (Z.div_unique _ _ _ (h * 3600 + m * 60 + s)); lia).
    assert ((d * 86400 + h * 3600 + m * 60 + s) mod 86400 = h * 3600 + m * 60 + s) as ->
      by (symmetry; apply (Z.mod_unique _ _ d); lia).
    assert ((h * 3600 + m * 60 + s) / 3600 = h) as ->
      by (symmetry; apply (Z.div_unique _ _ _ (m * 60 + s)); lia).
    assert ((h * 3600 + m * 60 + s) mod 3600 = m * 60 + s) as ->
      by (symmetry; apply (Z.mod_unique _ _ h); lia).
    assert ((m * 60 + s) / 60 = m) as ->
      by (symmetry; apply (Z.div_unique _ _ _ s); lia).
    assert ((m * 60 + s) mod 60 = s) as ->
      by (symmetry; apply (Z.mod_unique _ _ m); lia).
    destruct (part d "days" ++ _)%list; reflexivity. }
  split; [exact Heq|]. rewrite Heq. split.
  - intros E.
    destruct (Z.eq_dec d 0) as [->|Hd].
    2:{ destruct (counted_head_not_zero d "days"
                    (part h "hours" ++ part m "minutes" ++ part s "seconds")%list Hd)
          as [Hj Hl].
        destruct (part d "days" ++ _)%list; [congruence | contradiction]. }
    rewrite part_zero in E. cbn [app] in E.
    destruct (Z.eq_dec h 0) as [->|Hh0].
    2:{ destruct (counted_head_not_zero h "hours"
                    (part m "minutes" ++ part s "seconds")%list Hh0) as [Hj Hl].
        destruct (part h "hours" ++ _)%list; [congruence | contradiction]. }
    rewrite part_zero in E. cbn [app] in E.
    destruct (Z.eq_dec m 0) as [->|Hm0].
    2:{ destruct (counted_head_not_zero m "minutes" (part s "seconds") Hm0)
          as [Hj Hl].
        destruct (part m "minutes" ++ _)%list; [congruence | contradiction]. }
    rewrite part_zero in E. cbn [app] in E.
    destruct (Z.eq_dec s 0) as [->|Hs0]; [reflexivity|].
    destruct (counted_head_not_zero s "seconds" [] Hs0) as [Hj Hl].
    rewrite app_nil_r in Hj, Hl.
    destruct (part s "seconds"); [congruence | contradiction].
  - intros E. assert (d = 0 /\ h = 0 /\ m = 0 /\ s = 0) as (-> & -> & -> & ->) by lia.
    reflexivity.
Qed.

Lemma fmt_seconds_units_witness :
  fmt_seconds 90061 = "1 days 1 hours 1 minutes 1 seconds"
  /\ (fmt_seconds 3600 = "0 seconds" <-> 3600 = 0).
Proof.
  destruct (fmt_seconds_units 1 1 1 1 ltac:(lia) ltac:(lia) ltac:(lia)) as [H1 _].
  destruct (fmt_seconds_units 0 1 0 0 ltac:(lia) ltac:(lia) ltac:(lia)) as [_ H2].
  split; [exact H1 | exact H2].
Defined.

End DurationFacts.

(** ** [backend/utils/re_verify.py] *)

Module ReVerify.

(** The patterns the module is used with: literal characters, a range
    class, [\d] (on ASCII), a counted repetition, concatenation, and the
    anchors [^] and [$]. *)
Inductive regex : Type :=
| Lit (c : ascii)
| Class (lo hi : ascii)
| Digit
| Times (n : nat) (r : regex)
| Cat (r1 r2 : regex)
| Start
| Finish.

Definition newline : ascii := "010"%char.

(** Matching [r] at position [pos] of the text, [s] being the text from
    there on: the position and the rest after the match, or [None].
    Without the multi-line flag [^] matches at position 0 only and [$]
    at the end of the text or before a newline that ends it. *)
Fixpoint run (r : regex) (pos : nat) (s : string) : option (nat * string) :=
  match r with
  | Lit c =>
      match s with
      | String x s' => if Ascii.eqb x c then Some (S pos, s') else None
      | EmptyString => None
      end
  | Class lo hi =>
      match s with
      | String x s' => if in_range lo hi x then Some (S pos, s') else None
      | EmptyString => None
      end
  | Digit =>
      match s with
      | String x s' => if is_digit x then Some (S pos, s') else None
      | EmptyString => None
      end
  | Times n r' =>
      (fix rep (n : nat) (pos : nat) (s : string) : option (nat * string) :=
         match n with
         | O => Some (pos, s)
         | S n' =>
             match run r' pos s with
             | Some (pos', s') => rep n' pos' s'
             | None => None
             end
         end) n pos s
  | Cat r1 r2 =>
      match run r1 pos s with
      | Some (pos', s') => run r2 pos' s'
      | None => None
      end
  | Start => if (pos =? 0)%nat then Some (pos, s) else None
  | Finish =>
      if String.eqb s EmptyString || String.eqb s (String newline EmptyString)
      then Some (pos, s) else None
  end.

Definition found (m : option (nat * string)) : bool :=
  match m with Some _ => true | None => false end.

(** [re.search]: the first position from which the pattern matches. *)
Fixpoint search_from (r : regex) (pos : nat) (s : string) : bool :=
  found (run r pos s)
  || match s with
     | String _ s' => search_from r (S pos) s'
     | EmptyString => false
     end.

Definition search_string (pattern : regex) (text : string) : bool :=
  if search_from pattern 0 text then true else false.

(** [re.match]: the pattern matches from position 0. *)
Definition match_string (pattern : regex) (text : string) : bool :=
  if found (run pattern 0 text) then true else false.

(** [r'^1[3-9]\d{9}$'] *)
Definition phone_pattern : regex :=
  Cat Start (Cat (Lit "1") (Cat (Class "3" "9") (Cat (Times 9 Digit) Finish))).

Definition is_phone (text : string) : bool := match_string phone_pattern text.

End ReVerify.

(** Eleven characters: a one, a digit from three to nine, nine digits. *)
Fixpoint all_digits (s : string) : bool :=
  match s with
  | EmptyString => true
  | String c s' => is_digit c && all_digits s'
  end.

Definition phone_number (s : string) : bool :=
  match s with
  | String c1 (String c2 ds) =>
      Ascii.eqb c1 "1" && in_range "3" "9" c2
      && (String.length ds =? 9)%nat && all_digits ds
  | _ => false
  end.

Module ReVerifyFacts.
Import ReVerify PyFacts.

Lemma run_digits (n : nat) :
  forall pos s p rest,
    run (Times n Digit) pos s = Some (p, rest) <->
    exists ds, s = ds +:+ rest /\ String.length ds = n /\ all_digits ds = true
               /\ p = (pos + n)%nat.
Proof.
  induction n as [|n IH]; intros pos s p rest.
  - simpl. split.
    + intros [= <- <-]. exists "". repeat split. lia.
    + intros (ds & -> & Hl & _ & ->). destruct ds; [|discriminate].
      rewrite app_empty_l. f_equal. f_equal. lia.
  - change (run (Times (S n) Digit) pos s)
      with (match run Digit pos s with
            | Some (pos', s') => run (Times n Digit) pos' s'
            | None => None
            end).
    destruct s as [|c s]; simpl run at 1.
    + split; [discriminate|]. intros (ds & E & Hl & _). destruct ds; discriminate.
    + destruct (is_digit c) eqn:D.
      * rewrite IH. split.
        -- intros (ds & -> & Hl & Hd & ->). exists (String c ds).
           rewrite app_cons. simpl. rewrite D, Hd, Hl. repeat split. lia.
        -- intros (ds & E & Hl & Hd & ->). destruct ds as [|c' ds]; [discriminate|].
           rewrite app_cons in E. injection E as <- ->. simpl in Hl, Hd.
           apply andb_true_iff in Hd as [_ Hd]. exists ds. repeat split; auto; lia.
      * split; [discriminate|]. intros (ds & E & Hl & Hd & _).
        destruct ds as [|c' ds]; [discriminate|].
        rewrite app_cons in E. injection E as <- _. simpl in Hd. rewrite D in Hd.
        discriminate.
Qed.

Lemma run_cat (r1 r2 : regex) (pos : nat) (s : string) :
  run (Cat r1 r2) pos s
  = match run r1 pos s with
    | Some (pos', s') => run r2 pos' s'
    | None => None
    end.
Proof. reflexivity. Qed.

Lemma run_phone (c1 c2 : ascii) (s : string) :
  run phone_pattern 0 (String c1 (String c2 s))
  = if Ascii.eqb c1 "1" then
      if in_range "3" "9" c2 then
        match run (Times 9 Digit) 2 s with
        | Some (p, rest) => run Finish p rest
        | None => None
        end
      else None
    else None.
Proof.
  unfold phone_pattern. rewrite run_cat. change (run Start 0 ?t) with (Some (0%nat, t)).
  cbv iota beta. rewrite run_cat.
  change (run (Lit "1") 0 (String c1 ?t))
    with (if Ascii.eqb c1 "1" then Some (1%nat, t) else None).
  destruct (Ascii.eqb c1 "1"); [|reflexivity]. rewrite run_cat.
  change (run (Class "3" "9") 1 (String c2 s))
    with (if in_range "3" "9" c2 then Some (2%nat, s) else None).
  destruct (in_range "3" "9" c2); [|reflexivity]. now rewrite run_cat.
Qed.

(** X25 — [is_phone] accepts exactly the eleven-character numbers (a
    one, a digit from three to nine, nine more digits) and the same
    numbers followed by one newline: [$] also matches before a newline
    that ends the text. *)
Theorem is_phone_accepts (text : string) :
  is_phone text = true <->
  exists number,
    phone_number number = true
    /\ (text = number \/ text = number +:+ String newline "").
Proof.
  unfold is_phone, match_string, phone_pattern.
  destruct text as [|c1 [|c2 s]].
  - split; [discriminate|]. intros (n & Hn & [<- | E]); [discriminate|].
    destruct n; discriminate.
  - simpl. split.
    + destruct (Ascii.eqb c1 "1"); discriminate.
    + intros (n & Hn & [<- | E]); [discriminate|].
      destruct n as [|a [|b n]]; try discriminate.
  - rewrite run_phone. destruct (Ascii.eqb c1 "1") eqn:E1.
    2:{ split; [discriminate|]. intros (n & Hn & Ht).
        destruct n as [|a [|b n]]; try discriminate.
        assert (a = c1) as -> by (destruct Ht as [Ht | Ht]; rewrite ?app_cons in Ht; congruence).
        simpl in Hn. rewrite E1 in Hn. discriminate. }
    destruct (in_range "3" "9" c2) eqn:E2.
    2:{ split; [discriminate|]. intros (n & Hn & Ht).
        destruct n as [|a [|b n]]; try discriminate.
        assert (b = c2) as -> by (destruct Ht as [Ht | Ht]; rewrite ?app_cons in Ht; congruence).
        simpl in Hn. rewrite E2, andb_false_r in Hn. discriminate. }
    destruct (run (Times 9 Digit) 2 s) as [[p rest]|] eqn:R.
    + apply run_digits in R as (ds & -> & Hl & Hd & ->).
      cbn [run]. destruct (String.eqb_spec rest "") as [->|Hr1]; simpl.
      * split; [intros _|reflexivity].
        exists (String c1 (String c2 ds)). rewrite app_empty_r. simpl.
        rewrite E1, E2, Hl, Hd. auto.
      * destruct (String.eqb_spec rest (String newline "")) as [->|Hr2]; simpl.
        -- split; [intros _|reflexivity].
           exists (String c1 (String c2 ds)). simpl. rewrite E1, E2, Hl, Hd. auto.
        -- split; [discriminate|]. intros (n & Hn & Ht).
           destruct n as [|a [|b n]]; try discriminate. simpl in Hn.
           apply andb_true_iff in Hn as [Hn Hdn]. apply andb_true_iff in Hn as [_ Hln].
           apply Nat.eqb_eq in Hln.
           assert (forall x y : string,
                      String.length ds = String.length n -> ds +:+ x = n +:+ y -> x = y)
             as Hcut.
           { clear. revert n. induction ds as [|c ds IH]; intros [|c' n] x y Hl E;
               try discriminate; [exact E|].
             rewrite !app_cons in E. injection E as _ E. simpl in Hl.
             apply (IH n); [lia | exact E]. }
           exfalso.
           destruct Ht as [Ht | Ht]; rewrite ?app_cons in Ht; injection Ht as _ _ Ht.
           ++ apply Hr1. apply (Hcut rest ""); [lia | now rewrite app_empty_r].
           ++ apply Hr2. apply (Hcut rest (String newline "")); [lia | exact Ht].
    + split; [discriminate|]. intros (n & Hn & Ht).
      destruct n as [|a [|b n]]; try discriminate. simpl in Hn.
      apply andb_true_iff in Hn as [Hn Hdn]. apply andb_true_iff in Hn as [_ Hln].
      apply Nat.eqb_eq in Hln.
      assert (exists rest, s = n +:+ rest) as [rest ->].
      { destruct Ht as [Ht | Ht]; rewrite ?app_cons in Ht; injection Ht as _ _ ->;
          [exists ""; now rewrite app_empty_r | eauto]. }
      assert (run (Times 9 Digit) 2 (n +:+ rest) = Some ((2 + 9)%nat, rest)) as R'
        by (apply run_digits; eauto).
      congruence.
Qed.

Lemma is_phone_accepts_witness :
  is_phone ("13812345678" +:+ String newline "") = true.
Proof.
  apply (proj2 (is_phone_accepts _)). exists "13812345678".
  split; [reflexivity | right; reflexivity].
Defined.

Lemma run_start_later (r : regex) (pos : nat) (s : string) :
  run (Cat Start r) (S pos) s = None.
Proof. reflexivity. Qed.

Lemma search_from_start_later (r : regex) (s : string) :
  forall pos, search_from (Cat Start r) (S pos) s = false.
Proof.
  induction s as [|c s IH]; intros pos; simpl; [reflexivity|]. apply IH.
Qed.

(** A match from the beginning is a find, and for a pattern that
    starts with [^] the two functions agree on every text. *)
Theorem search_and_match_agree (pattern : regex) (text : string) :
  (match_string pattern text = true -> search_string pattern text = true)
  /\ search_string (Cat Start pattern) text = match_string (Cat Start pattern) text.
Proof.
  unfold search_string, match_string. split.
  - destruct text; simpl; destruct (found (run pattern 0 _)); simpl; auto; discriminate.
  - destruct text as [|c text].
    + simpl. now rewrite orb_false_r.
    + cbn [search_from]. rewrite search_from_start_later. now rewrite orb_false_r.
Qed.

End ReVerifyFacts.
